(** * Library circulation: item lifecycle, reservations and fines

    A shallow embedding of [library_management.py] and the properties of
    its item state machine, patron limits and catalog import.

    Conventions of the embedding.
    - A Python [int] is a [Z]; a [str] is a [string]; a [float] is a
      binary64 primitive [float]; [None]-able attributes are [option]s.
    - A [datetime] is the number of microseconds since the epoch, a [Z];
      a [timedelta] is a number of microseconds, a [Z].
    - A method that mutates [self] takes the old object state and returns
      the new one next to its Python return value.
    - The effects of the program (reading the clock, printing, creating
      an object) are threaded through the state monad [M] over [Env]. *)

From Stdlib Require Import ZArith List String Bool Lia.
From Stdlib Require Import Floats.
From Stdlib Require Import Sorted Permutation Relations.
Import ListNotations.

Open Scope string_scope.
Open Scope list_scope.
Open Scope Z_scope.

Set Implicit Arguments.

(** ** Time *)

Definition datetime := Z.
Definition timedelta := Z.

Definition microseconds_per_day : Z := 86400000000.

(** [datetime.timedelta(days=n)] *)
Definition timedelta_days (n : Z) : timedelta := n * microseconds_per_day.

(** [delta.days]: a timedelta is normalised with a non-negative
    sub-day remainder, so [days] is the floor of the quotient. *)
Definition days (delta : timedelta) : Z := delta / microseconds_per_day.

(** ** Enumerations *)

Inductive ItemStatus : Set :=
| AVAILABLE | CHECKED_OUT | RESERVED | DAMAGED | LOST.

(** [status.value] *)
Definition ItemStatus_value (s : ItemStatus) : string :=
  match s with
  | AVAILABLE => "Available"
  | CHECKED_OUT => "Checked Out"
  | RESERVED => "Reserved"
  | DAMAGED => "Damaged"
  | LOST => "Lost"
  end.

Definition ItemStatus_members : list ItemStatus :=
  [AVAILABLE; CHECKED_OUT; RESERVED; DAMAGED; LOST].

Definition ItemStatus_eqb (a b : ItemStatus) : bool :=
  match a, b with
  | AVAILABLE, AVAILABLE | CHECKED_OUT, CHECKED_OUT | RESERVED, RESERVED
  | DAMAGED, DAMAGED | LOST, LOST => true
  | _, _ => false
  end.

Inductive NotificationType : Set :=
| OVERDUE | RESERVATION | FINE | GENERAL.

(** ** Exceptions that the modelled code can raise and catch *)

Inductive exn : Set :=
| KeyError (key : string)
| ValueError (value : string)
| JSONDecodeError.

Definition result (A : Type) : Type := (exn + A)%type.

(** [ItemStatus(v)]: lookup of a member by value, [ValueError] when no
    member has that value. *)
Definition ItemStatus_of_value (v : string) : result ItemStatus :=
  match find (fun s => String.eqb (ItemStatus_value s) v) ItemStatus_members with
  | Some s => inr s
  | None => inl (ValueError v)
  end.

(** ** The persisted document

    What [json.dump] writes and [json.load] reads back: a document that
    is a JSON object whose [items] are JSON objects.  A JSON object is
    a record of optional fields ([None]: the key is absent); a field that
    is present has the JSON type [save_to_file] writes for it.  A [type]
    or [status] that is not a string behaves as an unknown string does,
    and is represented by one.  The ISO text of a due date is represented
    by the datetime it denotes. *)

Record ItemData : Type := mkItemData {
  d_type : option string;
  d_item_id : option Z;
  d_title : option string;
  d_category : option string;
  d_status : option string;
  d_checkout_count : option Z;
  d_current_patron : option (option Z);     (* [Some None]: null *)
  d_due_date : option (option datetime);    (* [Some None]: null *)
  d_reservation_count : option Z;
  d_author : option string;
  d_isbn : option string;
  d_edition : option Z;
  d_director : option string;
  d_runtime : option Z;
  d_artist : option string;
  d_tracks : option Z
}.

Record PatronData : Type := mkPatronData {
  d_patron_id : Z;
  d_name : string;
  d_email : string;
  d_membership_level : string;
  d_fines : float
}.

Record NextIds : Type := mkNextIds {
  d_item : option Z;
  d_patron : option Z;
  d_staff : option Z
}.

Record FileData : Type := mkFileData {
  d_items : option (list ItemData);
  d_patrons : option (list PatronData);
  d_next_ids : option NextIds
}.

(** The content of a file: text that is not JSON, or a document. *)
Inductive FileContent : Type :=
| NotJson
| Json (data : FileData).

(** ** The environment and the effect monad *)

(** What a [print] call writes, one event per call, carrying the values
    interpolated into the message. *)
Inductive output : Type :=
| ItemNowAvailable (item_id next_patron : Z)
| DataSaved (filename : string)
| DataLoaded (filename : string)
| FileNotFoundMsg (filename : string)
| ErrorLoading (e : exn).

Record Env : Type := mkEnv {
  clock : nat -> datetime;   (* the reading of the n-th [datetime.now()] *)
  ticks : nat;               (* how many readings were taken so far *)
  stdout : list output;      (* what was printed so far *)
  next_oid : positive;       (* identity of the next object created *)
  files : list (string * FileContent)   (* the files, by name *)
}.

Definition M (A : Type) : Type := Env -> A * Env.

Definition ret {A} (a : A) : M A := fun e => (a, e).

Definition bind {A B} (m : M A) (k : A -> M B) : M B :=
  fun e => let (a, e') := m e in k a e'.

Declare Scope lib_scope.
Delimit Scope lib_scope with lib.
Notation "x <- m ;; k" := (bind m (fun x => k))
  (at level 61, m at next level, right associativity) : lib_scope.
Notation "m ;; k" := (bind m (fun _ => k))
  (at level 61, right associativity) : lib_scope.
Open Scope lib_scope.

(** The time the next [datetime.now()] returns. *)
Definition now (e : Env) : datetime := clock e (ticks e).

Definition tick (e : Env) : Env :=
  mkEnv (clock e) (S (ticks e)) (stdout e) (next_oid e) (files e).

(** [datetime.datetime.now()] *)
Definition datetime_now : M datetime := fun e => (now e, tick e).

(** [print(...)] *)
Definition print (o : output) : M unit :=
  fun e => (tt, mkEnv (clock e) (ticks e) (stdout e ++ [o]) (next_oid e)
                      (files e)).

(** Object creation: a fresh identity. *)
Definition new_object : M positive :=
  fun e => (next_oid e,
            mkEnv (clock e) (ticks e) (stdout e) (Pos.succ (next_oid e))
                  (files e)).

(** Lookup of the first binding of a string key. *)
Fixpoint assoc {A} (k : string) (l : list (string * A)) : option A :=
  match l with
  | [] => None
  | (k', a) :: r => if String.eqb k k' then Some a else assoc k r
  end.

(** [open(filename, 'r')] and [json.load]: [None] when there is no such
    file. *)
Definition read_file (filename : string) : M (option FileContent) :=
  fun e => (assoc filename (files e), e).

(** [open(filename, 'w')] and [json.dump]: the file is replaced. *)
Definition write_file (filename : string) (data : FileData) : M unit :=
  fun e => (tt, mkEnv (clock e) (ticks e) (stdout e) (next_oid e)
                      ((filename, Json data) :: files e)).

(** ** Item classes *)

Inductive ItemClass : Set := Book | DVD | CD.

Definition ItemClass_eqb (a b : ItemClass) : bool :=
  match a, b with
  | Book, Book | DVD, DVD | CD, CD => true
  | _, _ => false
  end.

(** [type(item).__name__] *)
Definition class_name (c : ItemClass) : string :=
  match c with Book => "Book" | DVD => "DVD" | CD => "CD" end.

(** The concrete classes of the method resolution order of a class
    ([class CD(Book)]; the abstract root [LibraryItem] is left out). *)
Definition mro (c : ItemClass) : list ItemClass :=
  match c with
  | Book => [Book]
  | DVD => [DVD]
  | CD => [CD; Book]
  end.

Definition isinstance (c target : ItemClass) : bool :=
  existsb (ItemClass_eqb target) (mro c).

(** Conversion of the [int] operand of a float product, rounded to the
    nearest float as Python does.  It follows Python for [|n| < 2^63]
    and is exact for [|n| <= 2^53]; the day count of a timedelta is
    below [10^9]. *)
Definition float_of_int (n : Z) : float :=
  if n <? 0 then PrimFloat.opp (PrimFloat.of_uint63 (Uint63.of_Z (- n)))
  else PrimFloat.of_uint63 (Uint63.of_Z n).

(** ** Library items *)

(** An entry of [checkout_history]. *)
Record CheckoutRecord : Type := mkCheckoutRecord {
  cr_patron_id : Z;
  cr_checkout_date : datetime;
  cr_due_date : datetime
}.

(** The state of a [LibraryItem] object.  [cls] is the class the object
    was created from; the attributes of [LibraryItem.__init__] come
    first, then those the subclasses add ([None] where the class does
    not set the attribute).  The attributes that no method reads are not
    part of the state: [page_count], [publisher], [publication_year],
    [format], [rating], [release_year], [duration]. *)
Record LibraryItem : Type := mkItem {
  oid : positive;
  cls : ItemClass;
  item_id : Z;
  title : string;
  category : string;
  status : ItemStatus;
  checkout_count : Z;
  checkout_history : list CheckoutRecord;
  current_patron : option Z;
  due_date : option datetime;
  reservation_queue : list Z;
  added_date : datetime;
  author : option string;
  isbn : option string;
  edition : option Z;
  director : option string;
  runtime : option Z;
  artist : option string;
  tracks : option Z
}.

(** Attribute assignments [self.x = v]. *)
Definition set_status (v : ItemStatus) (i : LibraryItem) : LibraryItem :=
  mkItem (oid i) (cls i) (item_id i) (title i) (category i) v
         (checkout_count i) (checkout_history i) (current_patron i)
         (due_date i) (reservation_queue i) (added_date i) (author i)
         (isbn i) (edition i) (director i) (runtime i) (artist i) (tracks i).

Definition set_checkout_count (v : Z) (i : LibraryItem) : LibraryItem :=
  mkItem (oid i) (cls i) (item_id i) (title i) (category i) (status i)
         v (checkout_history i) (current_patron i)
         (due_date i) (reservation_queue i) (added_date i) (author i)
         (isbn i) (edition i) (director i) (runtime i) (artist i) (tracks i).

Definition set_checkout_history (v : list CheckoutRecord) (i : LibraryItem)
  : LibraryItem :=
  mkItem (oid i) (cls i) (item_id i) (title i) (category i) (status i)
         (checkout_count i) v (current_patron i)
         (due_date i) (reservation_queue i) (added_date i) (author i)
         (isbn i) (edition i) (director i) (runtime i) (artist i) (tracks i).

Definition set_current_patron (v : option Z) (i : LibraryItem) : LibraryItem :=
  mkItem (oid i) (cls i) (item_id i) (title i) (category i) (status i)
         (checkout_count i) (checkout_history i) v
         (due_date i) (reservation_queue i) (added_date i) (author i)
         (isbn i) (edition i) (director i) (runtime i) (artist i) (tracks i).

Definition set_due_date (v : option datetime) (i : LibraryItem) : LibraryItem :=
  mkItem (oid i) (cls i) (item_id i) (title i) (category i) (status i)
         (checkout_count i) (checkout_history i) (current_patron i)
         v (reservation_queue i) (added_date i) (author i)
         (isbn i) (edition i) (director i) (runtime i) (artist i) (tracks i).

Definition set_reservation_queue (v : list Z) (i : LibraryItem) : LibraryItem :=
  mkItem (oid i) (cls i) (item_id i) (title i) (category i) (status i)
         (checkout_count i) (checkout_history i) (current_patron i)
         (due_date i) v (added_date i) (author i)
         (isbn i) (edition i) (director i) (runtime i) (artist i) (tracks i).

(** [LibraryItem.__init__], for an object of class [c]. *)
Definition LibraryItem_init (c : ItemClass) (item_id' : Z)
    (title' category' : string) : M LibraryItem :=
  o <- new_object ;;
  added <- datetime_now ;;
  ret (mkItem o c item_id' title' category' AVAILABLE 0 [] None None [] added
              None None None None None None None).

(** [Book.__init__]; the clock is read once more for
    [publication_year]. *)
Definition Book_init (c : ItemClass) (item_id' : Z)
    (title' author' isbn' category' : string) (edition' : Z) : M LibraryItem :=
  i <- LibraryItem_init c item_id' title' category' ;;
  _ <- datetime_now ;;
  ret (mkItem (oid i) (cls i) (item_id i) (title i)
              (category i) (status i) (checkout_count i)
              (checkout_history i) (current_patron i) (due_date i)
              (reservation_queue i) (added_date i)
              (Some author') (Some isbn') (Some edition')
              (director i) (runtime i) (artist i) (tracks i)).

(** [Book(item_id, title, author, isbn, category, edition)] *)
Definition new_Book (item_id' : Z) (title' author' isbn' category' : string)
    (edition' : Z) : M LibraryItem :=
  Book_init Book item_id' title' author' isbn' category' edition'.

(** [DVD(item_id, title, director, category, runtime)]; the clock is read
    once more for [release_year]. *)
Definition new_DVD (item_id' : Z) (title' director' category' : string)
    (runtime' : Z) : M LibraryItem :=
  i <- LibraryItem_init DVD item_id' title' category' ;;
  _ <- datetime_now ;;
  ret (mkItem (oid i) (cls i) (item_id i) (title i)
              (category i) (status i) (checkout_count i)
              (checkout_history i) (current_patron i) (due_date i)
              (reservation_queue i) (added_date i)
              (author i) (isbn i) (edition i)
              (Some director') (Some runtime') (artist i) (tracks i)).

(** [CD(item_id, title, artist, category, tracks)]: runs [Book.__init__]
    with the artist as author and an empty ISBN. *)
Definition new_CD (item_id' : Z) (title' artist' category' : string)
    (tracks' : Z) : M LibraryItem :=
  i <- Book_init CD item_id' title' artist' "" category' 1 ;;
  ret (mkItem (oid i) (cls i) (item_id i) (title i)
              (category i) (status i) (checkout_count i)
              (checkout_history i) (current_patron i) (due_date i)
              (reservation_queue i) (added_date i)
              (author i) (isbn i) (edition i)
              (director i) (runtime i) (Some artist') (Some tracks')).

(** [get_checkout_period], dispatched on the class of the object. *)
Definition get_checkout_period (self : LibraryItem) : Z :=
  match cls self with
  | Book => 21
  | DVD => 7
  | CD => 14
  end.

(** [calculate_fine], dispatched on the class of the object. *)
Definition calculate_fine (self : LibraryItem) (days_overdue : Z) : float :=
  match cls self with
  | Book => (float_of_int days_overdue * 0.25)%float
  | DVD => (float_of_int days_overdue * 1.00)%float
  | CD => (float_of_int days_overdue * 0.50)%float
  end.

(** The property [checkout_period]. *)
Definition checkout_period (self : LibraryItem) : Z :=
  get_checkout_period self.

(** [LibraryItem.checkout]: the Python return value and the new state of
    [self]. *)
Definition checkout (self : LibraryItem) (patron_id : Z)
  : M (bool * LibraryItem) :=
  if ItemStatus_eqb (status self) AVAILABLE then
    let self := set_status CHECKED_OUT self in
    let self := set_current_patron (Some patron_id) self in
    let self := set_checkout_count (checkout_count self + 1) self in
    t <- datetime_now ;;
    let due := t + timedelta_days (checkout_period self) in
    let self := set_due_date (Some due) self in
    t' <- datetime_now ;;
    let entry := mkCheckoutRecord patron_id t' due in
    let self := set_checkout_history (checkout_history self ++ [entry]) self in
    ret (true, self)
  else ret (false, self).

(** [LibraryItem.checkin]: the fine and the new state of [self].  A
    datetime is always true as a condition, so [self.due_date and ...]
    tests that the due date is not [None]; the clock is read for the
    comparison only then, and once more for the day count when the item
    is overdue. *)
Definition checkin (self : LibraryItem) (condition : string)
  : M (float * LibraryItem) :=
  let self := set_status AVAILABLE self in
  fine <- match due_date self with
          | Some due =>
              t <- datetime_now ;;
              if due <? t then
                t' <- datetime_now ;;
                let days_overdue := days (t' - due) in
                ret (calculate_fine self days_overdue)
              else ret 0.0%float
          | None => ret 0.0%float
          end ;;
  let self := set_current_patron None self in
  let self := set_due_date None self in
  match reservation_queue self with
  | next_patron :: rest =>
      let self := set_reservation_queue rest self in
      print (ItemNowAvailable (item_id self) next_patron) ;;
      ret (fine, self)
  | [] => ret (fine, self)
  end.

(** [patron_id in self.reservation_queue] *)
Definition in_queue (patron_id : Z) (queue : list Z) : bool :=
  existsb (Z.eqb patron_id) queue.

(** [LibraryItem.reserve] *)
Definition reserve (self : LibraryItem) (patron_id : Z)
  : bool * LibraryItem :=
  if negb (in_queue patron_id (reservation_queue self)) then
    (true, set_reservation_queue (reservation_queue self ++ [patron_id]) self)
  else (false, self).

(** [LibraryItem.get_item_info]: the dict it returns, as a document
    record without the keys it does not set. *)
Definition get_item_info (self : LibraryItem) : ItemData :=
  mkItemData None (Some (item_id self)) (Some (title self))
             (Some (category self)) (Some (ItemStatus_value (status self)))
             (Some (checkout_count self)) (Some (current_patron self))
             (Some (due_date self))
             (Some (Z.of_nat (List.length (reservation_queue self))))
             None None None None None None None.

(** ** Patrons *)

(** An entry of [borrowing_history]. *)
Record BorrowRecord : Type := mkBorrowRecord {
  br_item_id : Z;
  br_title : string;
  br_checkout_date : datetime;
  br_due_date : datetime
}.

Record Notification : Type := mkNotification {
  notification_id : Z;
  user_id : Z;
  message : string;
  notification_type : NotificationType;
  timestamp : datetime;
  is_read : bool
}.

(** The state of a [Patron] object.  [checked_out_items] holds the
    items themselves in Python: here, their identities. *)
Record Patron : Type := mkPatron {
  person_id : Z;
  name : string;
  email : string;
  join_date : datetime;
  membership_level : string;
  checked_out_items : list positive;
  reserved_items : list positive;
  fines : float;
  borrowing_history : list BorrowRecord;
  notifications : list Notification
}.

Definition set_checked_out_items (v : list positive) (p : Patron) : Patron :=
  mkPatron (person_id p) (name p) (email p) (join_date p)
           (membership_level p) v (reserved_items p) (fines p)
           (borrowing_history p) (notifications p).

Definition set_borrowing_history (v : list BorrowRecord) (p : Patron)
  : Patron :=
  mkPatron (person_id p) (name p) (email p) (join_date p)
           (membership_level p) (checked_out_items p) (reserved_items p)
           (fines p) v (notifications p).

Definition set_notifications (v : list Notification) (p : Patron) : Patron :=
  mkPatron (person_id p) (name p) (email p) (join_date p)
           (membership_level p) (checked_out_items p) (reserved_items p)
           (fines p) (borrowing_history p) v.

(** [Patron(patron_id, name, email, membership_level)] *)
Definition new_Patron (patron_id : Z) (name' email' membership_level' : string)
  : M Patron :=
  joined <- datetime_now ;;
  ret (mkPatron patron_id name' email' joined membership_level' [] []
                0.0%float [] []).

(** The dict literal of [get_max_checkouts]. *)
Definition limits : list (string * Z) :=
  [("Standard", 5); ("Premium", 10); ("Student", 3); ("Faculty", 15)].

(** [Patron.get_max_checkouts]: [limits.get(self.membership_level, 5)] *)
Definition get_max_checkouts (self : Patron) : Z :=
  match assoc (membership_level self) limits with
  | Some n => n
  | None => 5
  end.

(** [Patron.checkout_item] *)
Definition checkout_item (self : Patron) (item : LibraryItem)
  : M (bool * Patron) :=
  if Z.of_nat (List.length (checked_out_items self)) <? get_max_checkouts self then
    let self := set_checked_out_items (checked_out_items self ++ [oid item])
                                      self in
    t <- datetime_now ;;
    t' <- datetime_now ;;
    let entry := mkBorrowRecord (item_id item) (title item) t
                   (t' + timedelta_days (checkout_period item)) in
    let self := set_borrowing_history (borrowing_history self ++ [entry])
                                      self in
    ret (true, self)
  else ret (false, self).

(** [Patron.add_notification]: the notification and the new state. *)
Definition add_notification (self : Patron) (message' : string)
    (notification_type' : NotificationType) : M (Notification * Patron) :=
  t <- datetime_now ;;
  let notification :=
    mkNotification (Z.of_nat (List.length (notifications self)) + 1)
                   (person_id self) message' notification_type' t false in
  ret (notification,
       set_notifications (notifications self ++ [notification]) self).

(** ** Librarian operations

    The methods do not read the librarian's own attributes, so [self] is
    not a parameter. *)

(** [Librarian.process_checkout]: the return value and the new states of
    the patron and of the item. *)
Definition process_checkout (patron : Patron) (item : LibraryItem)
  : M (bool * Patron * LibraryItem) :=
  r <- checkout_item patron item ;;
  let (ok, patron) := r in
  if ok then
    r' <- checkout item (person_id patron) ;;
    ret (true, patron, snd r')
  else ret (false, patron, item).

(** [Librarian.process_checkin] *)
Definition process_checkin (item : LibraryItem) (condition : string)
  : M (float * LibraryItem) :=
  checkin item condition.

(** ** Dictionaries keyed by integers

    A Python dict keeps its keys in insertion order, and an assignment
    to a key that is present keeps the key's position. *)

Section Dict.
Variable V : Type.

Definition dict : Type := list (Z * V).

(** [d.get(k)] *)
Fixpoint dict_get (k : Z) (d : dict) : option V :=
  match d with
  | [] => None
  | (k', v) :: r => if k =? k' then Some v else dict_get k r
  end.

(** [k in d] *)
Definition dict_mem (k : Z) (d : dict) : bool :=
  match dict_get k d with Some _ => true | None => false end.

(** [d[k] = v] *)
Fixpoint dict_set (k : Z) (v : V) (d : dict) : dict :=
  match d with
  | [] => [(k, v)]
  | (k', v') :: r =>
      if k =? k' then (k', v) :: r else (k', v') :: dict_set k v r
  end.

(** [del d[k]], for a key that is present *)
Fixpoint dict_del (k : Z) (d : dict) : dict :=
  match d with
  | [] => []
  | (k', v') :: r => if k =? k' then r else (k', v') :: dict_del k r
  end.

(** [d.values()] *)
Definition dict_values (d : dict) : list V := map snd d.
End Dict.

(** ** The catalog *)

(** The state of a [Catalog] object.  [librarians] is not read by the
    methods modelled here and is left out. *)
Record Catalog : Type := mkCatalog {
  items : dict LibraryItem;
  patrons : dict Patron;
  next_item_id : Z;
  next_patron_id : Z;
  next_staff_id : Z
}.

(** [Catalog()] *)
Definition new_Catalog : Catalog := mkCatalog [] [] 1 1 1.

Definition set_items (v : dict LibraryItem) (c : Catalog) : Catalog :=
  mkCatalog v (patrons c) (next_item_id c) (next_patron_id c)
            (next_staff_id c).

Definition set_patrons (v : dict Patron) (c : Catalog) : Catalog :=
  mkCatalog (items c) v (next_item_id c) (next_patron_id c)
            (next_staff_id c).

(** [Catalog.add_item] *)
Definition add_item (self : Catalog) (item : LibraryItem) : bool * Catalog :=
  if negb (dict_mem (item_id item) (items self)) then
    (true, set_items (dict_set (item_id item) item (items self)) self)
  else (false, self).

(** [Catalog.remove_item] *)
Definition remove_item (self : Catalog) (item_id' : Z) : bool * Catalog :=
  if dict_mem item_id' (items self) then
    (true, set_items (dict_del item_id' (items self)) self)
  else (false, self).

(** [Catalog.add_patron] *)
Definition add_patron (self : Catalog) (name' email' membership_level' : string)
  : M (Patron * Catalog) :=
  patron <- new_Patron (next_patron_id self) name' email' membership_level' ;;
  let self := set_patrons (dict_set (person_id patron) patron (patrons self))
                          self in
  ret (patron,
       mkCatalog (items self) (patrons self) (next_item_id self)
                 (next_patron_id self + 1) (next_staff_id self)).

(** The [item_data] that [save_to_file] builds for one item:
    [get_item_info()], the class name under [type], and the
    [update] of the first [isinstance] branch that applies. *)
Definition save_item (item : LibraryItem) : ItemData :=
  let d := get_item_info item in
  let ty := Some (class_name (cls item)) in
  if isinstance (cls item) Book then
    mkItemData ty (d_item_id d) (d_title d) (d_category d) (d_status d)
               (d_checkout_count d) (d_current_patron d) (d_due_date d)
               (d_reservation_count d)
               (author item) (isbn item) (edition item)
               (d_director d) (d_runtime d) (d_artist d) (d_tracks d)
  else if isinstance (cls item) DVD then
    mkItemData ty (d_item_id d) (d_title d) (d_category d) (d_status d)
               (d_checkout_count d) (d_current_patron d) (d_due_date d)
               (d_reservation_count d)
               (d_author d) (d_isbn d) (d_edition d)
               (director item) (runtime item) (d_artist d) (d_tracks d)
  else if isinstance (cls item) CD then
    mkItemData ty (d_item_id d) (d_title d) (d_category d) (d_status d)
               (d_checkout_count d) (d_current_patron d) (d_due_date d)
               (d_reservation_count d)
               (d_author d) (d_isbn d) (d_edition d)
               (d_director d) (d_runtime d) (artist item) (tracks item)
  else
    mkItemData ty (d_item_id d) (d_title d) (d_category d) (d_status d)
               (d_checkout_count d) (d_current_patron d) (d_due_date d)
               (d_reservation_count d)
               (d_author d) (d_isbn d) (d_edition d)
               (d_director d) (d_runtime d) (d_artist d) (d_tracks d).

Definition save_patron (patron : Patron) : PatronData :=
  mkPatronData (person_id patron) (name patron) (email patron)
               (membership_level patron) (fines patron).

(** [Catalog.save_to_file] *)
Definition save_to_file (self : Catalog) (filename : string) : M bool :=
  let data :=
    mkFileData (Some (map save_item (dict_values (items self))))
               (Some (map save_patron (dict_values (patrons self))))
               (Some (mkNextIds (Some (next_item_id self))
                                (Some (next_patron_id self))
                                (Some (next_staff_id self)))) in
  write_file filename data ;;
  print (DataSaved filename) ;;
  ret true.

(** [d.get(key, default)] on a document field *)
Definition get_or {A} (field : option A) (default : A) : A :=
  match field with Some a => a | None => default end.

(** [d[key]] on a document field: [KeyError] when the key is absent *)
Definition subscript {A} (key : string) (field : option A) : result A :=
  match field with Some a => inr a | None => inl (KeyError key) end.

(** The constructor call of one iteration of the loop of
    [load_from_file].  The arguments are evaluated before the object is
    created, so a [KeyError] comes before any effect; [inr None] is the
    [continue] of the last branch. *)
Definition load_construct (item_data : ItemData)
  : result (option (M LibraryItem)) :=
  let item_type := get_or (d_type item_data) "Book" in
  if String.eqb item_type "Book" then
    match subscript "item_id" (d_item_id item_data) with
    | inl e => inl e
    | inr id =>
      match subscript "title" (d_title item_data) with
      | inl e => inl e
      | inr t =>
          inr (Some (new_Book id t (get_or (d_author item_data) "")
                              (get_or (d_isbn item_data) "")
                              (get_or (d_category item_data) "General") 1))
      end
    end
  else if String.eqb item_type "DVD" then
    match subscript "item_id" (d_item_id item_data) with
    | inl e => inl e
    | inr id =>
      match subscript "title" (d_title item_data) with
      | inl e => inl e
      | inr t =>
          inr (Some (new_DVD id t (get_or (d_director item_data) "")
                             (get_or (d_category item_data) "Entertainment")
                             (get_or (d_runtime item_data) 0)))
      end
    end
  else if String.eqb item_type "CD" then
    match subscript "item_id" (d_item_id item_data) with
    | inl e => inl e
    | inr id =>
      match subscript "title" (d_title item_data) with
      | inl e => inl e
      | inr t =>
          inr (Some (new_CD id t (get_or (d_artist item_data) "")
                            (get_or (d_category item_data) "Music")
                            (get_or (d_tracks item_data) 0)))
      end
    end
  else inr None.

(** The lines under [# Restore item state], up to the insertion. *)
Definition load_restore (item_data : ItemData) (item : LibraryItem)
  : result LibraryItem :=
  match ItemStatus_of_value (get_or (d_status item_data) "Available") with
  | inl e => inl e
  | inr s =>
      let item := set_status s item in
      inr (set_checkout_count (get_or (d_checkout_count item_data) 0) item)
  end.

(** The loop over [data.get('items', [])]: the exception that ended it,
    if any, and [self.items] as the loop left it. *)
Fixpoint load_items (l : list ItemData) (its : dict LibraryItem)
  : M (result unit * dict LibraryItem) :=
  match l with
  | [] => ret (inr tt, its)
  | item_data :: rest =>
      match load_construct item_data with
      | inl e => ret (inl e, its)
      | inr None => load_items rest its
      | inr (Some construct) =>
          item <- construct ;;
          match load_restore item_data item with
          | inl e => ret (inl e, its)
          | inr item => load_items rest (dict_set (item_id item) item its)
          end
      end
  end.

(** [Catalog.load_from_file]: the return value and the new state of the
    catalog.  An exception inside the [try] ends the load with [False]
    and leaves the catalog as the statements before it made it. *)
Definition load_from_file (self : Catalog) (filename : string)
  : M (bool * Catalog) :=
  content <- read_file filename ;;
  match content with
  | None => print (FileNotFoundMsg filename) ;; ret (false, self)
  | Some NotJson => print (ErrorLoading JSONDecodeError) ;; ret (false, self)
  | Some (Json data) =>
      let self := set_items [] self in
      let self := set_patrons [] self in
      r <- load_items (get_or (d_items data) []) (items self) ;;
      let (outcome, its) := r in
      let self := set_items its self in
      match outcome with
      | inl e => print (ErrorLoading e) ;; ret (false, self)
      | inr _ =>
          let next_ids := get_or (d_next_ids data) (mkNextIds None None None) in
          let self := mkCatalog (items self) (patrons self)
                                (get_or (d_item next_ids) 1)
                                (get_or (d_patron next_ids) 1)
                                (get_or (d_staff next_ids) 1) in
          print (DataLoaded filename) ;;
          ret (true, self)
      end
  end.

(** ** The policy table of the specification

    Checkout period in days and fine per overdue day, by kind. *)

Definition spec_checkout_period (kind : ItemClass) : Z :=
  match kind with Book => 21 | DVD => 7 | CD => 14 end.

Definition spec_fine_rate (kind : ItemClass) : float :=
  match kind with
  | Book => 0.25%float
  | DVD => 1.00%float
  | CD => 0.50%float
  end.

(** ** The item invariant of the data model *)

Definition is_set {A} (o : option A) : Prop := o <> None.

Definition item_invariant (i : LibraryItem) : Prop :=
  (is_set (current_patron i) <-> status i = CHECKED_OUT) /\
  (is_set (due_date i) <-> is_set (current_patron i)) /\
  NoDup (reservation_queue i).

(** The states an item goes through without import: it is created by a
    constructor, and then checked out, checked in and reserved. *)
Inductive lifecycle : LibraryItem -> Prop :=
| life_Book id t a isbn' c ed e :
    lifecycle (fst (new_Book id t a isbn' c ed e))
| life_DVD id t d c r e :
    lifecycle (fst (new_DVD id t d c r e))
| life_CD id t a c n e :
    lifecycle (fst (new_CD id t a c n e))
| life_checkout i patron_id e :
    lifecycle i -> lifecycle (snd (fst (checkout i patron_id e)))
| life_checkin i condition e :
    lifecycle i -> lifecycle (snd (fst (checkin i condition e)))
| life_reserve i patron_id :
    lifecycle i -> lifecycle (snd (reserve i patron_id)).

(** ** Sample data *)

(** A clock that starts on 2026-01-01 and advances by one second per
    reading, no output, no file. *)
Definition env0 : Env :=
  mkEnv (fun n => 1767225600000000 + 1000000 * Z.of_nat n) 0 [] 1 [].

Definition sample_book : LibraryItem :=
  fst (new_Book 1 "X" "A. Author" "9780132350884" "General" 1 env0).

Definition sample_dvd : LibraryItem :=
  fst (new_DVD 2 "Y" "D. Director" "Entertainment" 120 env0).

Definition sample_cd : LibraryItem :=
  fst (new_CD 3 "Z" "An Artist" "Music" 13 env0).

Definition sample_student : Patron :=
  set_checked_out_items [11; 12; 13]%positive
    (fst (new_Patron 1 "Jane Doe" "jane@example.com" "Student" env0)).

Definition sample_premium : Patron :=
  fst (new_Patron 2 "John Smith" "john@example.com" "Premium" env0).

Definition sample_checked_out : LibraryItem :=
  snd (fst (checkout sample_book 7 env0)).

Definition sample_reserved : LibraryItem :=
  set_reservation_queue [4; 5; 6] sample_checked_out.

(** The sample book, checked out and more than ten days past its due
    date at the first reading of [env0]. *)
Definition sample_overdue : LibraryItem :=
  set_due_date (Some (now env0 - timedelta_days 10 - 1)) sample_checked_out.

(** ** Import: records and scenarios *)

(** The record [item_data] with its [type] key set to [ty]. *)
Definition with_type (ty : option string) (d : ItemData) : ItemData :=
  mkItemData ty (d_item_id d) (d_title d) (d_category d) (d_status d)
             (d_checkout_count d) (d_current_patron d) (d_due_date d)
             (d_reservation_count d) (d_author d) (d_isbn d) (d_edition d)
             (d_director d) (d_runtime d) (d_artist d) (d_tracks d).

(** An item record with an id and a title and no [type] key. *)
Definition untagged_record : ItemData :=
  mkItemData None (Some 1) (Some "X") None None None None None None
             None None None None None None None.

(** An item record whose [type] is none of the three class names. *)
Definition vinyl_record : ItemData :=
  with_type (Some "Vinyl") untagged_record.

Definition env_untagged : Env :=
  mkEnv (clock env0) 0 [] 1
        [("library_data.json",
          Json (mkFileData (Some [untagged_record]) None None))].

(** A catalog with one book and one patron; the librarian checks the
    book out to the patron, the catalog is saved and loaded back.  The
    catalog holds the book and the patron themselves, so its entries are
    their new states.  The result is the catalog before the save and the
    catalog after the load. *)
Definition save_and_load : M (Catalog * Catalog) :=
  book <- new_Book 1 "X" "A. Author" "9780132350884" "General" 1 ;;
  let catalog := snd (add_item new_Catalog book) in
  r <- add_patron catalog "John Smith" "john@example.com" "Premium" ;;
  let patron := fst r in
  let catalog := snd r in
  r <- process_checkout patron book ;;
  let patron := snd (fst r) in
  let book := snd r in
  let catalog := set_items (dict_set (item_id book) book (items catalog))
                           catalog in
  let catalog := set_patrons (dict_set (person_id patron) patron
                                       (patrons catalog)) catalog in
  _ <- save_to_file catalog "library_data.json" ;;
  r <- load_from_file catalog "library_data.json" ;;
  ret (catalog, snd r).

(** ** Sequences of operations *)

(** The patron ids of [ps] reserve the item one after the other. *)
Definition reserve_all (ps : list Z) (item : LibraryItem) : LibraryItem :=
  fold_left (fun i p => snd (reserve i p)) ps item.

(** [n] check-ins of the item in a row. *)
Fixpoint checkins (n : nat) (item : LibraryItem) (condition : string)
  : M LibraryItem :=
  match n with
  | O => ret item
  | S n' => r <- checkin item condition ;; checkins n' (snd r) condition
  end.

(** What the item operations leave alone: the identity of the object,
    its class and its descriptive attributes. *)
Definition same_identity (i j : LibraryItem) : Prop :=
  oid j = oid i /\ cls j = cls i /\ item_id j = item_id i /\
  title j = title i /\ category j = category i /\
  added_date j = added_date i /\ author j = author i /\ isbn j = isbn i /\
  edition j = edition i /\ director j = director i /\
  runtime j = runtime i /\ artist j = artist i /\ tracks j = tracks i.

(** The states a patron goes through: created by the constructor, then
    checking items out and receiving notifications. *)
Inductive patron_life : Patron -> Prop :=
| plife_new id n em lvl e :
    patron_life (fst (new_Patron id n em lvl e))
| plife_checkout_item p item e :
    patron_life p -> patron_life (snd (fst (checkout_item p item e)))
| plife_add_notification p msg ty e :
    patron_life p -> patron_life (snd (fst (add_notification p msg ty e))).

(** What the patron operations leave alone. *)
Definition same_account (p q : Patron) : Prop :=
  person_id q = person_id p /\ name q = name p /\ email q = email p /\
  join_date q = join_date p /\ membership_level q = membership_level p /\
  reserved_items q = reserved_items p /\ fines q = fines p.


(** ** Reachable catalogs *)

(** [d.keys()] *)
Definition dict_keys {V} (d : dict V) : list Z := map fst d.

(** One operation on an item. *)
Inductive item_step : LibraryItem -> LibraryItem -> Prop :=
| step_checkout i patron_id e :
    item_step i (snd (fst (checkout i patron_id e)))
| step_checkin i condition e :
    item_step i (snd (fst (checkin i condition e)))
| step_reserve i patron_id :
    item_step i (snd (reserve i patron_id)).

(** One operation on a patron. *)
Inductive patron_step : Patron -> Patron -> Prop :=
| step_checkout_item p item e :
    patron_step p (snd (fst (checkout_item p item e)))
| step_add_notification p msg ty e :
    patron_step p (snd (fst (add_notification p msg ty e))).

(** Any number of operations on a patron, one after the other. *)
Definition patron_steps : Patron -> Patron -> Prop :=
  clos_refl_trans Patron patron_step.

(** The catalogs that the methods of [Catalog] build from [Catalog()],
    together with the operations on the items and patrons they hold
    (the catalog holds the objects themselves, so an operation on one of
    them shows in its entry). *)
Inductive catalog_reachable : Catalog -> Prop :=
| reach_new : catalog_reachable new_Catalog
| reach_add_item c item :
    catalog_reachable c -> catalog_reachable (snd (add_item c item))
| reach_remove_item c k :
    catalog_reachable c -> catalog_reachable (snd (remove_item c k))
| reach_add_patron c n em lvl e :
    catalog_reachable c ->
    catalog_reachable (snd (fst (add_patron c n em lvl e)))
| reach_load c filename e :
    catalog_reachable c ->
    catalog_reachable (snd (fst (load_from_file c filename e)))
| reach_item c k i i' :
    catalog_reachable c -> dict_get k (items c) = Some i ->
    item_step i i' ->
    catalog_reachable (set_items (dict_set k i' (items c)) c)
| reach_patron c k p p' :
    catalog_reachable c -> dict_get k (patrons c) = Some p ->
    patron_step p p' ->
    catalog_reachable (set_patrons (dict_set k p' (patrons c)) c).

(** Every entry is filed under the id of its object, and the patron ids
    in use are below the next id to give out. *)
Definition catalog_wf (c : Catalog) : Prop :=
  NoDup (dict_keys (items c)) /\
  (forall k i, In (k, i) (items c) -> item_id i = k) /\
  NoDup (dict_keys (patrons c)) /\
  (forall k p, In (k, p) (patrons c) ->
               person_id p = k /\ k < next_patron_id c).

(** What an item that was saved and loaded back has of the item that
    was saved: id, title, category, class, status and checkout count are
    those of the saved item; holder, due date, reservations and history
    are those of a new item. *)
Definition restored_from (old new : LibraryItem) : Prop :=
  item_id new = item_id old /\ title new = title old /\
  category new = category old /\ cls new = cls old /\
  status new = status old /\ checkout_count new = checkout_count old /\
  current_patron new = None /\ due_date new = None /\
  reservation_queue new = [] /\ checkout_history new = [].

(** The exception that an item record makes the loop of
    [load_from_file] raise, if it does. *)
Definition record_error (item_data : ItemData) : option exn :=
  match load_construct item_data with
  | inl ex => Some ex
  | inr None => None
  | inr (Some _) =>
      match ItemStatus_of_value (get_or (d_status item_data) "Available") with
      | inl ex => Some ex
      | inr _ => None
      end
  end.

(** An item record tagged DVD without an id. *)
Definition nameless_record : ItemData :=
  mkItemData (Some "DVD") None (Some "Y") None None None None None None
             None None None None None None None.

Definition sample_catalog : Catalog :=
  snd (add_item (snd (add_item new_Catalog sample_checked_out)) sample_cd).

(** ** Search *)

(** [needle in haystack] on strings: [needle] occurs in [haystack] as a
    run of consecutive characters. *)
Fixpoint str_in (needle haystack : string) : bool :=
  if String.prefix needle haystack then true
  else match haystack with
       | EmptyString => false
       | String _ rest => str_in needle rest
       end.

(** The loop of [Catalog.search_items].  [lower] stands for
    [str.lower]; [hasattr(item, 'author')] holds when the class of the
    item sets the attribute. *)
Fixpoint search_loop (lower : string -> string)
    (search_term search_by : string) (its : list LibraryItem)
    (results : list ItemData) : list ItemData :=
  match its with
  | [] => results
  | item :: rest =>
      let results :=
        if String.eqb search_by "title"
           && str_in (lower search_term) (lower (title item))
        then results ++ [get_item_info item]
        else if String.eqb search_by "author"
                && match author item with Some _ => true | None => false end
        then
          if str_in (lower search_term)
                    (lower (get_or (author item) ""))
          then results ++ [get_item_info item]
          else results
        else if String.eqb search_by "category"
                && str_in (lower search_term) (lower (category item))
        then results ++ [get_item_info item]
        else results in
      search_loop lower search_term search_by rest results
  end.

(** [Catalog.search_items] *)
Definition search_items (lower : string -> string) (self : Catalog)
    (search_term search_by : string) : list ItemData :=
  search_loop lower search_term search_by (dict_values (items self)) [].

(** Whether [search_items] reports the item. *)
Definition search_matches (lower : string -> string)
    (search_term search_by : string) (item : LibraryItem) : bool :=
  (String.eqb search_by "title"
   && str_in (lower search_term) (lower (title item)))
  || (String.eqb search_by "author"
      && match author item with
         | Some a => str_in (lower search_term) (lower a)
         | None => false
         end)
  || (String.eqb search_by "category"
      && str_in (lower search_term) (lower (category item))).


(** ** Reports *)

(** A dict of counters keyed by strings, in insertion order. *)
Definition counter : Type := list (string * Z).

(** [d[k] = v] *)
Fixpoint counter_set (k : string) (v : Z) (d : counter) : counter :=
  match d with
  | [] => [(k, v)]
  | (k', v') :: r =>
      if String.eqb k k' then (k', v) :: r else (k', v') :: counter_set k v r
  end.

(** [d[k] = d.get(k, 0) + 1] *)
Definition counter_incr (k : string) (d : counter) : counter :=
  counter_set k (get_or (assoc k d) 0 + 1) d.

(** [sum(...)] over integers *)
Definition sum_Z (l : list Z) : Z := fold_left Z.add l 0.

(** The dict that [get_inventory_report] returns. *)
Record InventoryReport : Type := mkInventoryReport {
  inv_total_items : Z;
  inv_available_items : Z;
  inv_checked_out_items : Z;
  inv_by_category : counter;
  inv_by_type : counter
}.

(** [sum(1 for item in items if item.status == s)] *)
Definition count_status (s : ItemStatus) (its : list LibraryItem) : Z :=
  sum_Z (map (fun _ => 1)
             (filter (fun item => ItemStatus_eqb (status item) s) its)).

(** The loop of [get_inventory_report] over the two counter dicts. *)
Fixpoint inventory_loop (its : list LibraryItem)
    (by_category by_type : counter) : counter * counter :=
  match its with
  | [] => (by_category, by_type)
  | item :: rest =>
      let by_category := counter_incr (category item) by_category in
      let item_type := class_name (cls item) in
      let by_type := counter_incr item_type by_type in
      inventory_loop rest by_category by_type
  end.

(** [Catalog.get_inventory_report] *)
Definition get_inventory_report (self : Catalog) : InventoryReport :=
  let values := dict_values (items self) in
  let counters := inventory_loop values [] [] in
  mkInventoryReport (Z.of_nat (List.length (items self)))
                    (count_status AVAILABLE values)
                    (count_status CHECKED_OUT values)
                    (fst counters) (snd counters).

(** An entry of [popular_items]. *)
Record PopularEntry : Type := mkPopularEntry {
  pop_title : string;
  pop_checkout_count : Z;
  pop_type : string;
  pop_category : string
}.

Record PopularReport : Type := mkPopularReport {
  popular_items : list PopularEntry;
  total_checkouts : Z
}.

(** [sorted(items, key=lambda x: x.checkout_count, reverse=True)]: the
    stable sort in descending order of the key, in which items of equal
    key keep their order.  There is one such list; it is computed here
    by insertion from the right. *)
Fixpoint insert_desc (x : LibraryItem) (l : list LibraryItem)
  : list LibraryItem :=
  match l with
  | [] => [x]
  | y :: r =>
      if checkout_count x <? checkout_count y
      then y :: insert_desc x r
      else x :: y :: r
  end.

Definition sorted_desc (l : list LibraryItem) : list LibraryItem :=
  fold_right insert_desc [] l.

(** [a] has at least as many checkouts as [b]. *)
Definition more_popular (a b : LibraryItem) : Prop :=
  checkout_count b <= checkout_count a.

(** The slice [l[:limit]]: a negative [limit] counts from the end. *)
Definition slice_to {A} (limit : Z) (l : list A) : list A :=
  if limit <? 0
  then firstn (Z.to_nat (Z.of_nat (List.length l) + limit)) l
  else firstn (Z.to_nat limit) l.

Definition popular_entry (item : LibraryItem) : PopularEntry :=
  mkPopularEntry (title item) (checkout_count item) (class_name (cls item))
                 (category item).

(** [Catalog.get_popular_items_report] *)
Definition get_popular_items_report (self : Catalog) (limit : Z)
  : PopularReport :=
  let sorted_items := slice_to limit (sorted_desc (dict_values (items self))) in
  mkPopularReport (map popular_entry sorted_items)
                  (sum_Z (map checkout_count (dict_values (items self)))).

(** An entry of [overdue_items]; the ISO text of the due date is
    represented by the datetime. *)
Record OverdueEntry : Type := mkOverdueEntry {
  od_item_id : Z;
  od_title : string;
  od_due_date : datetime;
  od_days_overdue : Z;
  od_estimated_fine : float;
  od_current_patron : option Z
}.

Record OverdueReport : Type := mkOverdueReport {
  overdue_items : list OverdueEntry;
  total_items_overdue : Z;
  total_estimated_fines : float
}.

(** The loop of [get_overdue_items_report]. *)
Fixpoint overdue_loop (its : list LibraryItem)
    (overdue : list OverdueEntry) (total_fines : float)
  : M (list OverdueEntry * float) :=
  match its with
  | [] => ret (overdue, total_fines)
  | item :: rest =>
      match due_date item with
      | Some due =>
          t <- datetime_now ;;
          if due <? t then
            t' <- datetime_now ;;
            let days_overdue := days (t' - due) in
            let fine := calculate_fine item days_overdue in
            let entry := mkOverdueEntry (item_id item) (title item) due
                                        days_overdue fine
                                        (current_patron item) in
            overdue_loop rest (overdue ++ [entry]) (total_fines + fine)%float
          else overdue_loop rest overdue total_fines
      | None => overdue_loop rest overdue total_fines
      end
  end.

(** [Catalog.get_overdue_items_report] *)
Definition get_overdue_items_report (self : Catalog) : M OverdueReport :=
  r <- overdue_loop (dict_values (items self)) [] 0.0%float ;;
  ret (mkOverdueReport (fst r) (Z.of_nat (List.length (fst r))) (snd r)).

(** The clock never runs backwards. *)
Definition monotone_clock (e : Env) : Prop :=
  forall n m : nat, (n <= m)%nat -> clock e n <= clock e m.

(** What an entry of the overdue report says of an item of [its]: the
    item has the due date of the entry, a reading of the clock taken
    during the report came after it, and the days and the fine were
    computed from the reading that followed. *)
Definition overdue_entry_ok (e : Env) (its : list LibraryItem)
    (entry : OverdueEntry) : Prop :=
  exists item n,
    In item its /\ (ticks e <= n)%nat /\
    due_date item = Some (od_due_date entry) /\
    od_due_date entry < clock e n /\
    od_days_overdue entry = days (clock e (S n) - od_due_date entry) /\
    od_item_id entry = item_id item /\ od_title entry = title item /\
    od_estimated_fine entry = calculate_fine item (od_days_overdue entry) /\
    od_current_patron entry = current_patron item.

(** [item.due_date] is set. *)
Definition has_due_date (item : LibraryItem) : bool :=
  match due_date item with Some _ => true | None => false end.

(** ** Basic facts *)

(** Runs the effect monad of a goal down to its result. *)
Ltac run_effects :=
  unfold bind, ret, datetime_now, print, new_object; simpl.

Lemma ItemStatus_eqb_eq (a b : ItemStatus) :
  ItemStatus_eqb a b = true <-> a = b.
Proof.
  destruct a, b; simpl; split; intro H; try reflexivity; discriminate H.
Qed.

Lemma ItemStatus_eqb_neq (a b : ItemStatus) :
  ItemStatus_eqb a b = false <-> a <> b.
Proof.
  rewrite <- ItemStatus_eqb_eq.
  destruct (ItemStatus_eqb a b); split; intro H;
    try reflexivity; try discriminate; try (exfalso; apply H; reflexivity).
Qed.

Lemma in_queue_In (p : Z) (q : list Z) : in_queue p q = true <-> In p q.
Proof.
  unfold in_queue. rewrite existsb_exists. split.
  - intros [x [Hx Heq]]. apply Z.eqb_eq in Heq. subst x. exact Hx.
  - intro H. exists p. split; [exact H | apply Z.eqb_refl].
Qed.

(** The outcome of a failed checkout: nothing happened. *)
Lemma checkout_unavailable (self : LibraryItem) (patron_id : Z) (e : Env) :
  status self <> AVAILABLE -> checkout self patron_id e = (false, self, e).
Proof.
  intro H. apply ItemStatus_eqb_neq in H.
  unfold checkout. rewrite H. reflexivity.
Qed.

(** The outcome of a successful checkout, field by field. *)
Lemma checkout_available (self : LibraryItem) (patron_id : Z) (e : Env) :
  status self = AVAILABLE ->
  checkout self patron_id e =
    (true,
     mkItem (oid self) (cls self) (item_id self) (title self) (category self)
            CHECKED_OUT (checkout_count self + 1)
            (checkout_history self ++
               [mkCheckoutRecord patron_id (now (tick e))
                  (now e + timedelta_days (get_checkout_period self))])
            (Some patron_id)
            (Some (now e + timedelta_days (get_checkout_period self)))
            (reservation_queue self) (added_date self) (author self)
            (isbn self) (edition self) (director self) (runtime self)
            (artist self) (tracks self),
     tick (tick e)).
Proof.
  intro H. apply ItemStatus_eqb_eq in H.
  unfold checkout. rewrite H. reflexivity.
Qed.

(** ** Checkout *)

(** C1. [checkout] returns [True] exactly when the item is Available.
    When it does, the item becomes Checked Out, its holder is the
    patron, its checkout count grows by one, its due date is the time of
    the call plus the checkout period of its kind, and one entry is
    appended to its history.  In every other status it returns [False];
    the function is total, so no exception is raised. *)
Theorem checkout_iff_available
    (self : LibraryItem) (patron_id : Z) (e : Env) :
  let ok := fst (fst (checkout self patron_id e)) in
  let self' := snd (fst (checkout self patron_id e)) in
  (ok = true <-> status self = AVAILABLE) /\
  (status self = AVAILABLE ->
     status self' = CHECKED_OUT /\
     current_patron self' = Some patron_id /\
     checkout_count self' = checkout_count self + 1 /\
     due_date self' =
       Some (now e + timedelta_days (spec_checkout_period (cls self))) /\
     checkout_history self' =
       checkout_history self ++
         [mkCheckoutRecord patron_id (now (tick e))
            (now e + timedelta_days (spec_checkout_period (cls self)))] /\
     List.length (checkout_history self') =
       S (List.length (checkout_history self))) /\
  (status self <> AVAILABLE -> ok = false).
Proof.
  assert (Hp : get_checkout_period self = spec_checkout_period (cls self)).
  { unfold get_checkout_period. destruct (cls self); reflexivity. }
  cbv zeta. split; [| split].
  - split.
    + intro Hok. destruct (ItemStatus_eqb (status self) AVAILABLE) eqn:E.
      * apply ItemStatus_eqb_eq. exact E.
      * apply ItemStatus_eqb_neq in E.
        rewrite (checkout_unavailable _ patron_id e E) in Hok. discriminate Hok.
    + intro H. rewrite (checkout_available _ patron_id e H). reflexivity.
  - intro H. rewrite (checkout_available _ patron_id e H). simpl.
    rewrite Hp. repeat split.
    rewrite length_app. simpl. lia.
  - intro H. rewrite (checkout_unavailable _ patron_id e H). reflexivity.
Qed.

Lemma checkout_iff_available_witness :
  let ok := fst (fst (checkout sample_book 7 env0)) in
  let self' := snd (fst (checkout sample_book 7 env0)) in
  (ok = true <-> status sample_book = AVAILABLE) /\
  (status sample_book = AVAILABLE ->
     status self' = CHECKED_OUT /\
     current_patron self' = Some 7 /\
     checkout_count self' = checkout_count sample_book + 1 /\
     due_date self' =
       Some (now env0 + timedelta_days (spec_checkout_period (cls sample_book))) /\
     checkout_history self' =
       checkout_history sample_book ++
         [mkCheckoutRecord 7 (now (tick env0))
            (now env0 + timedelta_days (spec_checkout_period (cls sample_book)))] /\
     List.length (checkout_history self') =
       S (List.length (checkout_history sample_book))) /\
  (status sample_book <> AVAILABLE -> ok = false).
Proof. exact (checkout_iff_available sample_book 7 env0). Defined.

(** C10. In every status other than Available, [checkout] returns
    [False] and leaves the item as it was: status, holder, due date,
    checkout count, history and reservation queue, and every other
    attribute.  It reads no clock and prints nothing. *)
Theorem checkout_unavailable_frame
    (self : LibraryItem) (patron_id : Z) (e : Env)
    (Hstatus : status self <> AVAILABLE) :
  let ok := fst (fst (checkout self patron_id e)) in
  let self' := snd (fst (checkout self patron_id e)) in
  ok = false /\
  status self' = status self /\
  current_patron self' = current_patron self /\
  due_date self' = due_date self /\
  checkout_count self' = checkout_count self /\
  checkout_history self' = checkout_history self /\
  reservation_queue self' = reservation_queue self /\
  self' = self /\
  snd (checkout self patron_id e) = e.
Proof.
  cbv zeta. rewrite (checkout_unavailable _ patron_id e Hstatus). simpl.
  repeat split.
Qed.

Lemma checkout_unavailable_frame_witness :
  let ok := fst (fst (checkout sample_checked_out 8 env0)) in
  let self' := snd (fst (checkout sample_checked_out 8 env0)) in
  ok = false /\
  status self' = status sample_checked_out /\
  current_patron self' = current_patron sample_checked_out /\
  due_date self' = due_date sample_checked_out /\
  checkout_count self' = checkout_count sample_checked_out /\
  checkout_history self' = checkout_history sample_checked_out /\
  reservation_queue self' = reservation_queue sample_checked_out /\
  self' = sample_checked_out /\
  snd (checkout sample_checked_out 8 env0) = env0.
Proof.
  apply (checkout_unavailable_frame sample_checked_out 8 env0).
  vm_compute. discriminate.
Defined.

(** ** The policy of each kind *)

Lemma get_checkout_period_table (self : LibraryItem) :
  get_checkout_period self = spec_checkout_period (cls self).
Proof. unfold get_checkout_period. destruct (cls self); reflexivity. Qed.

Lemma calculate_fine_rate (self : LibraryItem) (days_overdue : Z) :
  calculate_fine self days_overdue =
    (float_of_int days_overdue * spec_fine_rate (cls self))%float.
Proof. unfold calculate_fine. destruct (cls self); reflexivity. Qed.

(** C3. The checkout period and the fine per overdue day of an item are
    those of the table for its kind: Book 21 days and 0.25, DVD 7 days
    and 1.00, CD 14 days and 0.50.  Five days overdue cost 1.25 for a
    Book, 5.00 for a DVD and 2.50 for a CD.  A CD is an instance of Book,
    is built by Book's initialiser and is stored with Book's fields, and
    still has its own period and rate. *)
Theorem kind_policy_table (self : LibraryItem) (days_overdue : Z) :
  get_checkout_period self = spec_checkout_period (cls self) /\
  calculate_fine self days_overdue =
    (float_of_int days_overdue * spec_fine_rate (cls self))%float /\
  (get_checkout_period self, spec_fine_rate (cls self), calculate_fine self 5) =
    match cls self with
    | Book => (21, 0.25%float, 1.25%float)
    | DVD => (7, 1.00%float, 5.00%float)
    | CD => (14, 0.50%float, 2.50%float)
    end /\
  (forall (id tracks' : Z) (title' artist' category' : string) (e : Env),
     let cd := fst (new_CD id title' artist' category' tracks' e) in
     cls cd = CD /\
     isinstance (cls cd) Book = true /\
     author cd = Some artist' /\
     d_author (save_item cd) = Some artist' /\
     d_artist (save_item cd) = None /\
     get_checkout_period cd = 14 /\
     calculate_fine cd 5 = 2.50%float).
Proof.
  split; [apply get_checkout_period_table |].
  split; [apply calculate_fine_rate |].
  split.
  - unfold get_checkout_period, calculate_fine.
    destruct (cls self); reflexivity.
  - intros. cbv zeta. repeat split.
Qed.

(** ** Check-in *)

(** C2. [checkin] is total and does not look at the status: the item
    ends Available with no holder and no due date.  The fine is the
    number of whole days between the due date and the time of the call,
    times the rate of the kind, when the call comes after the due date;
    it is 0 when the item is not overdue and when no due date is set. *)
Theorem checkin_total (self : LibraryItem) (condition : string) (e : Env) :
  let fine := fst (fst (checkin self condition e)) in
  let self' := snd (fst (checkin self condition e)) in
  status self' = AVAILABLE /\
  current_patron self' = None /\
  due_date self' = None /\
  (forall due, due_date self = Some due -> due < now e ->
     fine = (float_of_int (days (now (tick e) - due)%Z)
             * spec_fine_rate (cls self))%float) /\
  (forall due, due_date self = Some due -> now e <= due -> fine = 0%float) /\
  (due_date self = None -> fine = 0%float).
Proof.
  cbv zeta. unfold checkin. run_effects.
  destruct (due_date self) as [due |] eqn:Hdue.
  - destruct (due <? now e) eqn:Hlt;
      destruct (reservation_queue self) as [| next_patron rest]; simpl.
    all: split; [reflexivity |]; split; [reflexivity |];
      split; [reflexivity |].
    all: split; [| split; [| intro Hn; discriminate Hn]].
    all: intros due' Hd Hcmp; injection Hd as <-.
    all: first [ reflexivity
               | rewrite calculate_fine_rate; reflexivity
               | apply Z.ltb_lt in Hlt; lia
               | apply Z.ltb_ge in Hlt; lia ].
  - destruct (reservation_queue self) as [| next_patron rest]; simpl.
    all: repeat split; intros; discriminate.
Qed.

(** The sample book, checked in ten days and a microsecond after its
    due date: the fine is 2.50. *)
Lemma checkin_total_witness :
  status (snd (fst (checkin sample_overdue "Good" env0))) = AVAILABLE /\
  due_date sample_overdue = Some (now env0 - timedelta_days 10 - 1) /\
  days (now (tick env0) - (now env0 - timedelta_days 10 - 1)) = 10 /\
  fst (fst (checkin sample_overdue "Good" env0)) = 2.5%float.
Proof.
  split; [apply (checkin_total sample_overdue "Good" env0) |].
  split; [reflexivity |]. split; [reflexivity |].
  rewrite (proj1 (proj2 (proj2 (proj2
             (checkin_total sample_overdue "Good" env0))))
             (now env0 - timedelta_days 10 - 1) eq_refl);
    [reflexivity | vm_compute; reflexivity].
Defined.

(** C7. Checking in an item whose reservation queue is not empty removes
    the head of the queue and nothing else of it, so the queue is one
    shorter; the item ends Available with no holder, its checkout count
    and history are untouched (the patron taken from the queue did not
    get the item), and the availability for that patron is printed. *)
Theorem checkin_pops_head
    (self : LibraryItem) (condition : string) (e : Env)
    (Hqueue : reservation_queue self <> []) :
  let self' := snd (fst (checkin self condition e)) in
  let e' := snd (checkin self condition e) in
  reservation_queue self' = tl (reservation_queue self) /\
  S (List.length (reservation_queue self')) =
    List.length (reservation_queue self) /\
  status self' = AVAILABLE /\
  current_patron self' = None /\
  due_date self' = None /\
  checkout_count self' = checkout_count self /\
  checkout_history self' = checkout_history self /\
  stdout e' =
    stdout e ++ [ItemNowAvailable (item_id self)
                                  (hd 0 (reservation_queue self))].
Proof.
  cbv zeta. unfold checkin. run_effects.
  destruct (reservation_queue self) as [| next_patron rest];
    [contradiction Hqueue; reflexivity |].
  destruct (due_date self) as [due |]; [destruct (due <? now e) |];
    simpl; repeat split.
Qed.

Lemma checkin_pops_head_witness :
  let self' := snd (fst (checkin sample_reserved "Good" env0)) in
  let e' := snd (checkin sample_reserved "Good" env0) in
  reservation_queue self' = tl (reservation_queue sample_reserved) /\
  S (List.length (reservation_queue self')) =
    List.length (reservation_queue sample_reserved) /\
  status self' = AVAILABLE /\
  current_patron self' = None /\
  due_date self' = None /\
  checkout_count self' = checkout_count sample_reserved /\
  checkout_history self' = checkout_history sample_reserved /\
  stdout e' =
    stdout env0 ++ [ItemNowAvailable (item_id sample_reserved)
                                     (hd 0 (reservation_queue sample_reserved))].
Proof.
  apply (checkin_pops_head sample_reserved "Good" env0).
  vm_compute. discriminate.
Defined.

(** ** Reservation *)

(** C8. [reserve] appends the patron to the queue only when the patron
    is not in it, and a second call with the same patron changes
    nothing and returns [False]; from an empty queue two calls leave one
    entry.  The status is never changed. *)
Theorem reserve_idempotent (self : LibraryItem) (patron_id : Z) :
  let once := snd (reserve self patron_id) in
  let twice := snd (reserve once patron_id) in
  (In patron_id (reservation_queue self) ->
     reservation_queue once = reservation_queue self) /\
  (~ In patron_id (reservation_queue self) ->
     reservation_queue once = reservation_queue self ++ [patron_id]) /\
  twice = once /\
  fst (reserve once patron_id) = false /\
  (reservation_queue self = [] ->
     List.length (reservation_queue twice) = 1%nat) /\
  status once = status self /\
  status twice = status self.
Proof.
  cbv zeta.
  assert (Hin : in_queue patron_id (reservation_queue (snd (reserve self patron_id)))
                = true).
  { unfold reserve.
    destruct (in_queue patron_id (reservation_queue self)) eqn:E; simpl.
    - exact E.
    - apply in_queue_In. apply in_or_app. right. left. reflexivity. }
  assert (Hsecond : reserve (snd (reserve self patron_id)) patron_id
                    = (false, snd (reserve self patron_id))).
  { unfold reserve at 1. rewrite Hin. reflexivity. }
  rewrite Hsecond. simpl.
  unfold reserve.
  destruct (in_queue patron_id (reservation_queue self)) eqn:E; simpl.
  - apply in_queue_In in E. repeat split; try reflexivity.
    + intro Hn. contradiction.
    + intro Hempty. rewrite Hempty in E. destruct E.
  - assert (Hnot : ~ In patron_id (reservation_queue self)).
    { intro H. apply in_queue_In in H. rewrite H in E. discriminate E. }
    repeat split; try reflexivity.
    + intro H. contradiction.
    + intro Hempty. rewrite Hempty. reflexivity.
Qed.

Lemma reserve_idempotent_witness :
  reservation_queue (snd (reserve sample_book 4)) = [4] /\
  List.length
    (reservation_queue (snd (reserve (snd (reserve sample_book 4)) 4)))
  = 1%nat /\
  status (snd (reserve (snd (reserve sample_book 4)) 4)) = AVAILABLE.
Proof.
  split; [| split].
  - apply (proj1 (proj2 (reserve_idempotent sample_book 4))).
    simpl. intros [].
  - apply (proj1 (proj2 (proj2 (proj2 (proj2
              (reserve_idempotent sample_book 4)))))).
    reflexivity.
  - apply (proj2 (proj2 (proj2 (proj2 (proj2 (proj2
              (reserve_idempotent sample_book 4))))))).
Defined.

(** ** Checkout through the librarian *)

(** C4. When the patron already holds as many items as the tier allows,
    [process_checkout] returns [False] whatever the status of the item
    is; the item and the patron are as before, and the item's own
    [checkout] was not run (no clock was read). *)
Theorem process_checkout_at_limit
    (patron : Patron) (item : LibraryItem) (e : Env)
    (Hlimit : get_max_checkouts patron
              <= Z.of_nat (List.length (checked_out_items patron))) :
  let ok := fst (fst (fst (process_checkout patron item e))) in
  let patron' := snd (fst (fst (process_checkout patron item e))) in
  let item' := snd (fst (process_checkout patron item e)) in
  let e' := snd (process_checkout patron item e) in
  ok = false /\
  status item' = status item /\
  item' = item /\
  patron' = patron /\
  e' = e.
Proof.
  cbv zeta. unfold process_checkout, checkout_item.
  apply Z.ltb_ge in Hlimit. rewrite Hlimit. run_effects. repeat split.
Qed.

Lemma process_checkout_at_limit_witness :
  let ok := fst (fst (fst (process_checkout sample_student sample_dvd env0))) in
  let patron' := snd (fst (fst (process_checkout sample_student sample_dvd env0))) in
  let item' := snd (fst (process_checkout sample_student sample_dvd env0)) in
  let e' := snd (process_checkout sample_student sample_dvd env0) in
  ok = false /\
  status item' = status sample_dvd /\
  item' = sample_dvd /\
  patron' = sample_student /\
  e' = env0.
Proof.
  apply (process_checkout_at_limit sample_student sample_dvd env0).
  vm_compute. discriminate.
Defined.

(** C6. When the patron is below the tier limit and the item is not
    Available, [process_checkout] still appends the item to the patron's
    checked-out items and an entry to the borrowing history, and reports
    success, while the item is left exactly as it was. *)
Theorem process_checkout_no_rollback
    (patron : Patron) (item : LibraryItem) (e : Env)
    (Hbelow : Z.of_nat (List.length (checked_out_items patron))
              < get_max_checkouts patron)
    (Hstatus : status item <> AVAILABLE) :
  let ok := fst (fst (fst (process_checkout patron item e))) in
  let patron' := snd (fst (fst (process_checkout patron item e))) in
  let item' := snd (fst (process_checkout patron item e)) in
  ok = true /\
  checked_out_items patron' = checked_out_items patron ++ [oid item] /\
  borrowing_history patron' =
    borrowing_history patron ++
      [mkBorrowRecord (item_id item) (title item) (now e)
         (now (tick e) + timedelta_days (spec_checkout_period (cls item)))] /\
  item' = item /\
  status item' = status item /\
  current_patron item' = current_patron item /\
  checkout_count item' = checkout_count item.
Proof.
  cbv zeta. unfold process_checkout, checkout_item.
  apply Z.ltb_lt in Hbelow. rewrite Hbelow. run_effects.
  rewrite (checkout_unavailable item _ _ Hstatus). simpl.
  unfold checkout_period. rewrite get_checkout_period_table.
  repeat split.
Qed.

Lemma process_checkout_no_rollback_witness :
  let ok := fst (fst (fst (process_checkout sample_premium sample_checked_out env0))) in
  let patron' := snd (fst (fst (process_checkout sample_premium sample_checked_out env0))) in
  let item' := snd (fst (process_checkout sample_premium sample_checked_out env0)) in
  ok = true /\
  checked_out_items patron' =
    checked_out_items sample_premium ++ [oid sample_checked_out] /\
  borrowing_history patron' =
    borrowing_history sample_premium ++
      [mkBorrowRecord (item_id sample_checked_out) (title sample_checked_out)
         (now env0)
         (now (tick env0)
          + timedelta_days (spec_checkout_period (cls sample_checked_out)))] /\
  item' = sample_checked_out /\
  status item' = status sample_checked_out /\
  current_patron item' = current_patron sample_checked_out /\
  checkout_count item' = checkout_count sample_checked_out.
Proof.
  apply (process_checkout_no_rollback sample_premium sample_checked_out env0).
  - vm_compute. reflexivity.
  - vm_compute. discriminate.
Defined.

(** ** The item invariant along the life of an item *)

Lemma is_set_Some {A} (a : A) : is_set (Some a).
Proof. unfold is_set. discriminate. Qed.

Lemma not_is_set_None {A} : ~ is_set (@None A).
Proof. unfold is_set. intro H. apply H. reflexivity. Qed.

Lemma invariant_intro_held (i : LibraryItem) (p : Z) (d : datetime) :
  status i = CHECKED_OUT -> current_patron i = Some p -> due_date i = Some d ->
  NoDup (reservation_queue i) -> item_invariant i.
Proof.
  intros Hs Hp Hd Hq. unfold item_invariant. rewrite Hs, Hp, Hd.
  repeat split; auto using is_set_Some.
Qed.

Lemma invariant_intro_free (i : LibraryItem) :
  status i <> CHECKED_OUT -> current_patron i = None -> due_date i = None ->
  NoDup (reservation_queue i) -> item_invariant i.
Proof.
  intros Hs Hp Hd Hq. unfold item_invariant. rewrite Hp, Hd.
  repeat split; auto; intro H;
    solve [ exfalso; apply (not_is_set_None H) | contradiction ].
Qed.

Lemma new_Book_invariant id t a isbn' c ed e :
  item_invariant (fst (new_Book id t a isbn' c ed e)).
Proof.
  apply invariant_intro_free; simpl; try reflexivity;
    [discriminate | constructor].
Qed.

Lemma new_DVD_invariant id t d c r e :
  item_invariant (fst (new_DVD id t d c r e)).
Proof.
  apply invariant_intro_free; simpl; try reflexivity;
    [discriminate | constructor].
Qed.

Lemma new_CD_invariant id t a c n e :
  item_invariant (fst (new_CD id t a c n e)).
Proof.
  apply invariant_intro_free; simpl; try reflexivity;
    [discriminate | constructor].
Qed.

Lemma checkout_invariant (self : LibraryItem) (patron_id : Z) (e : Env) :
  item_invariant self ->
  item_invariant (snd (fst (checkout self patron_id e))).
Proof.
  intro Hinv. destruct (ItemStatus_eqb (status self) AVAILABLE) eqn:E.
  - apply ItemStatus_eqb_eq in E. rewrite (checkout_available _ _ _ E).
    simpl. eapply invariant_intro_held; simpl; try reflexivity.
    apply Hinv.
  - apply ItemStatus_eqb_neq in E. rewrite (checkout_unavailable _ _ _ E).
    exact Hinv.
Qed.

Lemma NoDup_tl {A} (l : list A) : NoDup l -> NoDup (tl l).
Proof.
  intro H. destruct l as [| a l]; simpl; [constructor |].
  inversion H; assumption.
Qed.

Lemma checkin_queue (self : LibraryItem) (condition : string) (e : Env) :
  let self' := snd (fst (checkin self condition e)) in
  status self' = AVAILABLE /\ current_patron self' = None /\
  due_date self' = None /\
  reservation_queue self' = tl (reservation_queue self).
Proof.
  cbv zeta. unfold checkin. run_effects.
  destruct (due_date self) as [due |]; [destruct (due <? now e) |];
    destruct (reservation_queue self) eqn:Hq; simpl; rewrite ?Hq;
    repeat split.
Qed.

(** Check-in establishes the invariant from any state whose queue has
    no duplicates. *)
Lemma checkin_invariant (self : LibraryItem) (condition : string) (e : Env) :
  NoDup (reservation_queue self) ->
  item_invariant (snd (fst (checkin self condition e))).
Proof.
  intro Hq.
  destruct (checkin_queue self condition e) as (Hs & Hp & Hd & Hq').
  apply invariant_intro_free; try assumption.
  - rewrite Hs. discriminate.
  - rewrite Hq'. apply NoDup_tl. exact Hq.
Qed.

Lemma NoDup_snoc {A} (l : list A) (a : A) :
  NoDup l -> ~ In a l -> NoDup (l ++ [a]).
Proof.
  intros Hl Ha. induction Hl as [| x l Hx Hl IH]; simpl.
  - constructor; [intros [] | constructor].
  - constructor.
    + intro Hin. apply in_app_or in Hin. destruct Hin as [Hin | [Heq | []]].
      * contradiction.
      * apply Ha. left. symmetry. exact Heq.
    + apply IH. intro Hin. apply Ha. right. exact Hin.
Qed.

Lemma reserve_invariant (self : LibraryItem) (patron_id : Z) :
  item_invariant self -> item_invariant (snd (reserve self patron_id)).
Proof.
  intros (Hholder & Hdue & Hq). unfold reserve.
  destruct (in_queue patron_id (reservation_queue self)) eqn:E; simpl.
  - exact (conj Hholder (conj Hdue Hq)).
  - unfold item_invariant. simpl.
    split; [exact Hholder | split; [exact Hdue |]].
    apply NoDup_snoc; [exact Hq |].
    intro Hin. apply in_queue_In in Hin. rewrite Hin in E. discriminate E.
Qed.

(** Every state of an item that was created by a constructor and then
    went through check-outs, check-ins and reservations (import left
    aside) satisfies the invariant of the data model. *)
Theorem lifecycle_invariant (i : LibraryItem) :
  lifecycle i -> item_invariant i.
Proof.
  induction 1.
  - apply new_Book_invariant.
  - apply new_DVD_invariant.
  - apply new_CD_invariant.
  - apply checkout_invariant. assumption.
  - apply checkin_invariant. apply IHlifecycle.
  - apply reserve_invariant. assumption.
Qed.

Lemma lifecycle_invariant_witness :
  lifecycle sample_checked_out /\ item_invariant sample_checked_out.
Proof.
  assert (H : lifecycle sample_checked_out).
  { unfold sample_checked_out, sample_book.
    apply life_checkout. apply life_Book. }
  split; [exact H | apply (lifecycle_invariant H)].
Defined.

(** ** Import *)

Lemma load_construct_unknown (item_data : ItemData) (t : string) :
  d_type item_data = Some t -> t <> "Book" -> t <> "DVD" -> t <> "CD" ->
  load_construct item_data = inr None.
Proof.
  intros Ht HB HD HC. unfold load_construct. rewrite Ht. simpl.
  apply String.eqb_neq in HB, HD, HC. rewrite HB, HD, HC. reflexivity.
Qed.

Lemma load_construct_missing (item_data : ItemData) :
  d_type item_data = None ->
  load_construct item_data =
    match d_item_id item_data, d_title item_data with
    | Some id, Some t =>
        inr (Some (new_Book id t (get_or (d_author item_data) "")
                            (get_or (d_isbn item_data) "")
                            (get_or (d_category item_data) "General") 1))
    | None, _ => inl (KeyError "item_id")
    | Some _, None => inl (KeyError "title")
    end.
Proof.
  intro Ht. unfold load_construct. rewrite Ht. simpl.
  destruct (d_item_id item_data), (d_title item_data); reflexivity.
Qed.

(** The restore step of the import gives a Checked Out item without a
    holder for every record whose status is "Checked Out". *)
Lemma load_restore_checked_out (item_data : ItemData) (item : LibraryItem) :
  d_status item_data = Some "Checked Out" ->
  current_patron item = None ->
  exists item',
    load_restore item_data item = inr item' /\
    status item' = CHECKED_OUT /\ current_patron item' = None /\
    ~ item_invariant item'.
Proof.
  intros Hs Hp. unfold load_restore. rewrite Hs. simpl.
  eexists. split; [reflexivity |]. simpl.
  split; [reflexivity |]. split; [exact Hp |].
  intros [Hholder _]. simpl in Hholder. rewrite Hp in Hholder.
  apply (not_is_set_None (proj2 Hholder eq_refl)).
Qed.

(** C9, as the code has it.  A record whose [type] is present and is
    none of Book, DVD and CD is skipped: the loop goes on as if the
    record were not there.  A record without a [type] is not skipped: it
    is loaded as a record tagged Book is, and when it has an id, a title
    and a valid status, a Book with that id, title and status is put in
    the catalog. *)
Theorem import_kind_tag
    (item_data : ItemData) (rest : list ItemData) (its : dict LibraryItem)
    (e : Env) :
  (forall t, d_type item_data = Some t ->
     t <> "Book" -> t <> "DVD" -> t <> "CD" ->
     load_items (item_data :: rest) its e = load_items rest its e) /\
  (d_type item_data = None ->
     load_items (item_data :: rest) its e =
       load_items (with_type (Some "Book") item_data :: rest) its e) /\
  (forall id t s,
     d_type item_data = None ->
     d_item_id item_data = Some id -> d_title item_data = Some t ->
     ItemStatus_of_value (get_or (d_status item_data) "Available") = inr s ->
     exists item e',
       cls item = Book /\ item_id item = id /\ title item = t /\
       status item = s /\
       load_items (item_data :: rest) its e =
         load_items rest (dict_set id item its) e').
Proof.
  split; [| split].
  - intros t Ht HB HD HC. simpl.
    rewrite (load_construct_unknown item_data Ht HB HD HC). reflexivity.
  - intro Ht. destruct item_data. simpl in Ht. subst. reflexivity.
  - intros id t s Ht Hid Htitle Hs. simpl.
    rewrite (load_construct_missing item_data Ht), Hid, Htitle.
    unfold bind at 1.
    destruct (new_Book id t (get_or (d_author item_data) "")
                (get_or (d_isbn item_data) "")
                (get_or (d_category item_data) "General") 1 e)
      as [item e'] eqn:Hnew.
    unfold load_restore. rewrite Hs.
    exists (set_checkout_count (get_or (d_checkout_count item_data) 0)
                               (set_status s item)), e'.
    assert (Hitem : item =
                    fst (new_Book id t (get_or (d_author item_data) "")
                           (get_or (d_isbn item_data) "")
                           (get_or (d_category item_data) "General") 1 e))
      by (rewrite Hnew; reflexivity).
    rewrite Hitem. simpl. repeat split.
Qed.

Lemma import_kind_tag_witness :
  load_items [vinyl_record] [] env0 = load_items [] [] env0 /\
  load_items [untagged_record] [] env0 =
    load_items [with_type (Some "Book") untagged_record] [] env0.
Proof.
  split.
  - apply (proj1 (import_kind_tag vinyl_record [] [] env0) "Vinyl");
      [reflexivity | discriminate | discriminate | discriminate].
  - apply (proj1 (proj2 (import_kind_tag untagged_record [] [] env0))).
    reflexivity.
Defined.

(** C9, as stated, fails on a record without a [type]: loading a file
    whose only item record has no [type] succeeds and leaves one item in
    the catalog, a Book. *)
Lemma import_missing_kind_creates_Book :
  let r := load_from_file new_Catalog "library_data.json" env_untagged in
  d_type untagged_record = None /\
  fst (fst r) = true /\
  map (fun kv => (fst kv, cls (snd kv), title (snd kv)))
      (items (snd (fst r))) = [(1, Book, "X")].
Proof. vm_compute. repeat split. Qed.

(** C5 at the failing input.  Before the save the checked-out book of
    the catalog satisfies the invariant, and the file holds its status,
    holder and due date; after the load of that file the book is
    Checked Out with no holder and no due date, against the invariant. *)
Theorem import_breaks_item_invariant :
  let before := fst (fst (save_and_load env0)) in
  let after := snd (fst (save_and_load env0)) in
  (exists i, dict_get 1 (items before) = Some i /\
             status i = CHECKED_OUT /\ current_patron i = Some 1 /\
             is_set (due_date i) /\ item_invariant i /\
             d_status (save_item i) = Some "Checked Out" /\
             d_current_patron (save_item i) = Some (Some 1)) /\
  (exists i, dict_get 1 (items after) = Some i /\
             status i = CHECKED_OUT /\ current_patron i = None /\
             due_date i = None /\ ~ item_invariant i).
Proof.
  cbv zeta. split.
  - eexists. split; [vm_compute; reflexivity |].
    split; [reflexivity |]. split; [reflexivity |].
    split; [apply is_set_Some |].
    split; [| split; reflexivity].
    eapply invariant_intro_held; try reflexivity. constructor.
  - eexists. split; [vm_compute; reflexivity |].
    split; [reflexivity |]. split; [reflexivity |]. split; [reflexivity |].
    intros [Hholder _]. simpl in Hholder.
    apply (not_is_set_None (proj2 Hholder eq_refl)).
Qed.

(** ** More on the life of an item *)

Lemma checkin_fine (self : LibraryItem) (condition : string) (e : Env) :
  fst (fst (checkin self condition e)) =
    match due_date self with
    | Some due =>
        if due <? now e
        then calculate_fine self (days (now (tick e) - due))
        else 0%float
    | None => 0%float
    end.
Proof.
  unfold checkin. run_effects.
  destruct (due_date self) as [due |]; [destruct (due <? now e) |];
    destruct (reservation_queue self); reflexivity.
Qed.

Lemma checkin_frame (self : LibraryItem) (condition : string) (e : Env) :
  let self' := snd (fst (checkin self condition e)) in
  checkout_count self' = checkout_count self /\
  checkout_history self' = checkout_history self /\
  same_identity self self'.
Proof.
  cbv zeta. unfold checkin, same_identity. run_effects.
  destruct (due_date self) as [due |]; [destruct (due <? now e) |];
    destruct (reservation_queue self); simpl; repeat split.
Qed.

Lemma checkin_env (self : LibraryItem) (condition : string) (e : Env) :
  let e' := snd (checkin self condition e) in
  stdout e' =
    stdout e ++ match reservation_queue self with
                | next_patron :: _ =>
                    [ItemNowAvailable (item_id self) next_patron]
                | [] => []
                end /\
  ticks e' =
    match due_date self with
    | Some due => if due <? now e then S (S (ticks e)) else S (ticks e)
    | None => ticks e
    end /\
  clock e' = clock e /\ files e' = files e /\ next_oid e' = next_oid e.
Proof.
  cbv zeta. unfold checkin. run_effects.
  destruct (due_date self) as [due |]; [destruct (due <? now e) |];
    destruct (reservation_queue self); simpl;
    rewrite ?app_nil_r; repeat split.
Qed.

Lemma reserve_frame (self : LibraryItem) (patron_id : Z) :
  let self' := snd (reserve self patron_id) in
  status self' = status self /\ current_patron self' = current_patron self /\
  due_date self' = due_date self /\
  checkout_count self' = checkout_count self /\
  checkout_history self' = checkout_history self /\
  same_identity self self'.
Proof.
  cbv zeta. unfold reserve, same_identity.
  destruct (in_queue patron_id (reservation_queue self)); simpl;
    repeat split.
Qed.

Lemma checkout_identity (self : LibraryItem) (patron_id : Z) (e : Env) :
  same_identity self (snd (fst (checkout self patron_id e))).
Proof.
  unfold checkout, same_identity.
  destruct (ItemStatus_eqb (status self) AVAILABLE); simpl; repeat split.
Qed.

(** No operation of the item life sets a status other than Available
    and Checked Out: an item is never Reserved, Damaged or Lost. *)
Theorem lifecycle_status (i : LibraryItem) :
  lifecycle i -> status i = AVAILABLE \/ status i = CHECKED_OUT.
Proof.
  induction 1 as [| | | i p e Hi IH | i c e Hi IH | i p Hi IH];
    try (left; reflexivity).
  - destruct (ItemStatus_eqb (status i) AVAILABLE) eqn:E.
    + apply ItemStatus_eqb_eq in E. rewrite (checkout_available _ p e E).
      right. reflexivity.
    + apply ItemStatus_eqb_neq in E. rewrite (checkout_unavailable _ p e E).
      exact IH.
  - left. apply (checkin_queue i c e).
  - rewrite (proj1 (reserve_frame i p)). exact IH.
Qed.

Lemma lifecycle_status_witness :
  status sample_checked_out = AVAILABLE \/
  status sample_checked_out = CHECKED_OUT.
Proof.
  apply (lifecycle_status (i := sample_checked_out)).
  unfold sample_checked_out, sample_book.
  apply life_checkout. apply life_Book.
Defined.

(** Along the life of an item the checkout count is the length of the
    checkout history, and while the item is Checked Out the last entry
    of the history holds its current holder and its due date. *)
Theorem lifecycle_history (i : LibraryItem) :
  lifecycle i ->
  checkout_count i = Z.of_nat (List.length (checkout_history i)) /\
  (status i = CHECKED_OUT ->
   exists h entry,
     checkout_history i = h ++ [entry] /\
     current_patron i = Some (cr_patron_id entry) /\
     due_date i = Some (cr_due_date entry)).
Proof.
  induction 1 as [| | | i p e Hi IH | i c e Hi IH | i p Hi IH];
    try (split; [reflexivity | intro Hs; discriminate Hs]).
  - destruct (ItemStatus_eqb (status i) AVAILABLE) eqn:E.
    + apply ItemStatus_eqb_eq in E. rewrite (checkout_available _ p e E).
      simpl. split.
      * rewrite length_app. simpl. destruct IH as [IH _]. lia.
      * intros _. eexists. eexists. repeat split.
    + apply ItemStatus_eqb_neq in E. rewrite (checkout_unavailable _ p e E).
      exact IH.
  - destruct (checkin_frame i c e) as (Hc & Hh & _).
    destruct (checkin_queue i c e) as (Hs & _).
    rewrite Hc, Hh. split; [apply IH |].
    intro Hs'. rewrite Hs in Hs'. discriminate Hs'.
  - destruct (reserve_frame i p) as (Hs & Hp & Hd & Hc & Hh & _).
    rewrite Hs, Hp, Hd, Hc, Hh. exact IH.
Qed.

Lemma lifecycle_history_witness :
  checkout_count sample_checked_out
  = Z.of_nat (List.length (checkout_history sample_checked_out)) /\
  (status sample_checked_out = CHECKED_OUT ->
   exists h entry,
     checkout_history sample_checked_out = h ++ [entry] /\
     current_patron sample_checked_out = Some (cr_patron_id entry) /\
     due_date sample_checked_out = Some (cr_due_date entry)).
Proof.
  apply (lifecycle_history (i := sample_checked_out)).
  unfold sample_checked_out, sample_book.
  apply life_checkout. apply life_Book.
Defined.

(** Checkout, check-in and reservation never change the identity of
    the item, its class, its id, title, category and date of addition,
    nor the attributes of its subclass; so the checkout period and the
    fine rate of an item are the same all its life. *)
Theorem item_operations_keep_identity
    (self : LibraryItem) (patron_id : Z) (condition : string) (e : Env) :
  same_identity self (snd (fst (checkout self patron_id e))) /\
  same_identity self (snd (fst (checkin self condition e))) /\
  same_identity self (snd (reserve self patron_id)) /\
  get_checkout_period (snd (fst (checkout self patron_id e)))
  = get_checkout_period self /\
  get_checkout_period (snd (fst (checkin self condition e)))
  = get_checkout_period self /\
  (forall d, calculate_fine (snd (fst (checkin self condition e))) d
             = calculate_fine self d).
Proof.
  pose proof (checkout_identity self patron_id e) as Hout.
  pose proof (proj2 (proj2 (checkin_frame self condition e))) as Hin.
  pose proof (proj2 (proj2 (proj2 (proj2 (proj2
                (reserve_frame self patron_id)))))) as Hres.
  repeat split; try apply Hout; try apply Hin; try apply Hres.
  - unfold get_checkout_period. destruct Hout as (_ & -> & _). reflexivity.
  - unfold get_checkout_period. destruct Hin as (_ & -> & _). reflexivity.
  - intro d. unfold calculate_fine. destruct Hin as (_ & -> & _).
    reflexivity.
Qed.

(** An Available item that is checked out and then checked in, the
    check-in coming no later than the due date, is Available again with
    no holder and no due date; the fine is 0, the checkout count is one
    higher and the head of the reservation queue, if any, is gone. *)
Theorem checkout_then_checkin
    (self : LibraryItem) (patron_id : Z) (condition : string) (e : Env)
    (Havailable : status self = AVAILABLE)
    (Hclock : clock e (S (S (ticks e)))
              <= now e + timedelta_days (get_checkout_period self)) :
  let r1 := checkout self patron_id e in
  let r2 := checkin (snd (fst r1)) condition (snd r1) in
  fst (fst r2) = 0%float /\
  status (snd (fst r2)) = AVAILABLE /\
  current_patron (snd (fst r2)) = None /\
  due_date (snd (fst r2)) = None /\
  checkout_count (snd (fst r2)) = checkout_count self + 1 /\
  reservation_queue (snd (fst r2)) = tl (reservation_queue self).
Proof.
  cbv zeta. rewrite (checkout_available _ patron_id e Havailable).
  cbn [fst snd].
  match goal with
  | |- context [checkin ?i condition ?e'] =>
      pose proof (checkin_fine i condition e') as Hfine;
      pose proof (checkin_queue i condition e') as Hq;
      pose proof (checkin_frame i condition e') as Hf
  end.
  cbv zeta in Hq, Hf. cbn [due_date] in Hfine.
  destruct Hq as (Hs & Hp & Hd & Hqueue). destruct Hf as (Hc & _).
  split; [| repeat split; assumption].
  rewrite Hfine.
  replace (now (tick (tick e))) with (clock e (S (S (ticks e))))
    by reflexivity.
  apply Z.ltb_ge in Hclock. rewrite Hclock. reflexivity.
Qed.

Lemma checkout_then_checkin_witness :
  let r1 := checkout sample_book 7 env0 in
  let r2 := checkin (snd (fst r1)) "Good" (snd r1) in
  fst (fst r2) = 0%float /\
  status (snd (fst r2)) = AVAILABLE /\
  current_patron (snd (fst r2)) = None /\
  due_date (snd (fst r2)) = None /\
  checkout_count (snd (fst r2)) = checkout_count sample_book + 1 /\
  reservation_queue (snd (fst r2)) = tl (reservation_queue sample_book).
Proof.
  apply (checkout_then_checkin sample_book 7 "Good" env0).
  - reflexivity.
  - vm_compute. discriminate.
Defined.

(** A check-in that follows a check-in finds no due date: the fine is
    0 and the clock is not read, whatever the first check-in cost. *)
Theorem second_checkin_is_free
    (self : LibraryItem) (condition condition' : string) (e : Env) :
  let r1 := checkin self condition e in
  let r2 := checkin (snd (fst r1)) condition' (snd r1) in
  fst (fst r2) = 0%float /\
  ticks (snd r2) = ticks (snd r1) /\
  status (snd (fst r2)) = AVAILABLE /\
  reservation_queue (snd (fst r2)) = tl (tl (reservation_queue self)).
Proof.
  cbv zeta.
  destruct (checkin_queue self condition e) as (_ & _ & Hd & Hq).
  pose proof (checkin_fine (snd (fst (checkin self condition e))) condition'
                (snd (checkin self condition e))) as Hfine.
  destruct (checkin_env (snd (fst (checkin self condition e))) condition'
              (snd (checkin self condition e))) as (_ & Hticks & _).
  destruct (checkin_queue (snd (fst (checkin self condition e))) condition'
              (snd (checkin self condition e))) as (Hs' & _ & _ & Hq').
  rewrite Hd in Hfine, Hticks. rewrite Hq in Hq'.
  repeat split; assumption.
Qed.

Lemma days_small (delta : timedelta) :
  0 <= delta < microseconds_per_day -> days delta = 0.
Proof. intro H. unfold days. apply Z.div_small. exact H. Qed.

Lemma calculate_fine_zero (self : LibraryItem) :
  calculate_fine self 0 = 0%float.
Proof. unfold calculate_fine. destruct (cls self); reflexivity. Qed.

(** A check-in less than a day after the due date costs nothing: the
    fine counts whole days. *)
Theorem checkin_within_a_day_is_free
    (self : LibraryItem) (condition : string) (e : Env) (due : datetime)
    (Hdue : due_date self = Some due)
    (Hlate : due < now e)
    (Hclock : now e <= now (tick e))
    (Hday : now (tick e) - due < microseconds_per_day) :
  fst (fst (checkin self condition e)) = 0%float.
Proof.
  rewrite checkin_fine, Hdue.
  apply Z.ltb_lt in Hlate. rewrite Hlate. apply Z.ltb_lt in Hlate.
  rewrite days_small by lia. apply calculate_fine_zero.
Qed.

Lemma checkin_within_a_day_is_free_witness :
  fst (fst (checkin (set_due_date (Some (now env0 - 5)) sample_checked_out)
                    "Good" env0)) = 0%float.
Proof.
  apply (checkin_within_a_day_is_free
           (set_due_date (Some (now env0 - 5)) sample_checked_out)
           "Good" env0 (due := now env0 - 5)).
  - reflexivity.
  - vm_compute. reflexivity.
  - vm_compute. discriminate.
  - vm_compute. reflexivity.
Defined.

(** ** Reservations are served in order *)

Lemma reserve_absent (self : LibraryItem) (patron_id : Z) :
  ~ In patron_id (reservation_queue self) ->
  reservation_queue (snd (reserve self patron_id))
  = reservation_queue self ++ [patron_id].
Proof.
  intro Hnot. unfold reserve.
  destruct (in_queue patron_id (reservation_queue self)) eqn:E.
  - apply in_queue_In in E. contradiction.
  - reflexivity.
Qed.

Lemma reserve_all_queue (ps : list Z) :
  forall item,
    NoDup (reservation_queue item ++ ps) ->
    reservation_queue (reserve_all ps item) = reservation_queue item ++ ps /\
    item_id (reserve_all ps item) = item_id item.
Proof.
  unfold reserve_all.
  induction ps as [| p ps IH]; intros item Hnd; simpl.
  - rewrite app_nil_r. split; reflexivity.
  - assert (Hp : ~ In p (reservation_queue item)).
    { apply NoDup_remove_2 in Hnd. intro Hin. apply Hnd.
      apply in_or_app. left. exact Hin. }
    pose proof (reserve_absent item p Hp) as Hq.
    destruct (IH (snd (reserve item p))) as [Hq' Hid].
    { rewrite Hq, <- app_assoc. exact Hnd. }
    rewrite Hq', Hid, Hq, <- app_assoc.
    split; [reflexivity |].
    apply (reserve_frame item p).
Qed.

Lemma checkins_served (n : nat) :
  forall (item : LibraryItem) (condition : string) (e : Env),
    stdout (snd (checkins n item condition e)) =
      stdout e ++ map (ItemNowAvailable (item_id item))
                      (firstn n (reservation_queue item)) /\
    reservation_queue (fst (checkins n item condition e)) =
      skipn n (reservation_queue item).
Proof.
  induction n as [| n IH]; intros item condition e.
  - simpl. rewrite app_nil_r. split; reflexivity.
  - simpl. unfold bind.
    destruct (checkin item condition e) as [[fine item'] e'] eqn:Hci.
    destruct (checkin_env item condition e) as (Hout & _).
    destruct (checkin_queue item condition e) as (_ & _ & _ & Hq).
    destruct (checkin_frame item condition e) as (_ & _ & Hid).
    rewrite Hci in Hout, Hq, Hid. simpl in Hout, Hq, Hid.
    destruct Hid as (_ & _ & Hid & _).
    destruct (IH item' condition e') as [IHout IHq].
    cbn [snd fst]. rewrite IHout, IHq, Hout, Hq, Hid.
    destruct (reservation_queue item) as [| p q]; simpl.
    + rewrite firstn_nil, skipn_nil, app_nil_r. split; reflexivity.
    + rewrite <- app_assoc. split; reflexivity.
Qed.

(** Patrons that reserve an item one after the other, none of them
    twice, are served first come, first served: the check-ins that
    follow announce the item to the patrons already in the queue and
    then to the new ones in the order of their reservations, one patron
    per check-in, and leave the queue empty. *)
Theorem reservations_served_in_order
    (item : LibraryItem) (ps : list Z) (condition : string) (e : Env)
    (Hdistinct : NoDup (reservation_queue item ++ ps)) :
  let waiting := reservation_queue item ++ ps in
  let r := checkins (List.length waiting) (reserve_all ps item) condition e in
  reservation_queue (reserve_all ps item) = waiting /\
  stdout (snd r) = stdout e ++ map (ItemNowAvailable (item_id item)) waiting /\
  reservation_queue (fst r) = [].
Proof.
  cbv zeta. destruct (reserve_all_queue ps item Hdistinct) as [Hq Hid].
  destruct (checkins_served (List.length (reservation_queue item ++ ps))
              (reserve_all ps item) condition e) as [Hout Hrest].
  rewrite Hq, Hid in Hout. rewrite Hq in Hrest.
  rewrite firstn_all in Hout. rewrite skipn_all in Hrest.
  repeat split; assumption.
Qed.

Lemma reservations_served_in_order_witness :
  let waiting := reservation_queue sample_reserved ++ [9; 8] in
  let r := checkins (List.length waiting) (reserve_all [9; 8] sample_reserved)
                    "Good" env0 in
  reservation_queue (reserve_all [9; 8] sample_reserved) = waiting /\
  stdout (snd r)
  = stdout env0 ++ map (ItemNowAvailable (item_id sample_reserved)) waiting /\
  reservation_queue (fst r) = [].
Proof.
  apply (reservations_served_in_order sample_reserved [9; 8] "Good" env0).
  simpl. repeat constructor; simpl; intuition lia.
Defined.

(** ** Patrons *)

Lemma get_max_checkouts_values (self : Patron) :
  get_max_checkouts self = 3 \/ get_max_checkouts self = 5 \/
  get_max_checkouts self = 10 \/ get_max_checkouts self = 15.
Proof.
  unfold get_max_checkouts, limits. simpl.
  repeat match goal with
         | |- context [String.eqb ?a ?b] => destruct (String.eqb a b)
         end; auto.
Qed.

Lemma checkout_item_cases (self : Patron) (item : LibraryItem) (e : Env) :
  (Z.of_nat (List.length (checked_out_items self)) < get_max_checkouts self /\
   checkout_item self item e =
     (true,
      mkPatron (person_id self) (name self) (email self) (join_date self)
               (membership_level self) (checked_out_items self ++ [oid item])
               (reserved_items self) (fines self)
               (borrowing_history self ++
                  [mkBorrowRecord (item_id item) (title item) (now e)
                     (now (tick e)
                      + timedelta_days (get_checkout_period item))])
               (notifications self),
      tick (tick e))) \/
  (get_max_checkouts self <= Z.of_nat (List.length (checked_out_items self)) /\
   checkout_item self item e = (false, self, e)).
Proof.
  unfold checkout_item.
  destruct (Z.of_nat (List.length (checked_out_items self))
            <? get_max_checkouts self) eqn:E.
  - left. apply Z.ltb_lt in E. split; [exact E | reflexivity].
  - right. apply Z.ltb_ge in E. split; [exact E | reflexivity].
Qed.

(** The tier table: Standard 5, Premium 10, Student 3, Faculty 15, and 5
    for every other membership level; the limit is never below 3 nor
    above 15. *)
Theorem get_max_checkouts_table (self : Patron) :
  (membership_level self = "Standard" -> get_max_checkouts self = 5) /\
  (membership_level self = "Premium" -> get_max_checkouts self = 10) /\
  (membership_level self = "Student" -> get_max_checkouts self = 3) /\
  (membership_level self = "Faculty" -> get_max_checkouts self = 15) /\
  (membership_level self <> "Standard" ->
   membership_level self <> "Premium" ->
   membership_level self <> "Student" ->
   membership_level self <> "Faculty" -> get_max_checkouts self = 5) /\
  3 <= get_max_checkouts self <= 15.
Proof.
  split; [intro H; unfold get_max_checkouts; rewrite H; reflexivity |].
  split; [intro H; unfold get_max_checkouts; rewrite H; reflexivity |].
  split; [intro H; unfold get_max_checkouts; rewrite H; reflexivity |].
  split; [intro H; unfold get_max_checkouts; rewrite H; reflexivity |].
  split.
  - intros H1 H2 H3 H4. apply String.eqb_neq in H1, H2, H3, H4.
    unfold get_max_checkouts, limits. simpl. rewrite H1, H2, H3, H4.
    reflexivity.
  - destruct (get_max_checkouts_values self) as [H | [H | [H | H]]];
      rewrite H; lia.
Qed.

(** A patron never holds more items than the tier allows, and has one
    entry in the borrowing history per item held: nothing removes an
    item from the patron's list. *)
Theorem patron_limit_invariant (p : Patron) :
  patron_life p ->
  Z.of_nat (List.length (checked_out_items p)) <= get_max_checkouts p /\
  List.length (borrowing_history p) = List.length (checked_out_items p).
Proof.
  induction 1 as [id n em lvl e | p item e Hp IH | p msg ty e Hp IH].
  - simpl. split; [| reflexivity].
    match goal with
    | |- _ <= get_max_checkouts ?q =>
        destruct (get_max_checkouts_values q) as [H | [H | [H | H]]];
          rewrite H; lia
    end.
  - destruct (checkout_item_cases p item e) as [[Hlt Heq] | [Hge Heq]];
      rewrite Heq; [| exact IH].
    cbn [fst snd checked_out_items borrowing_history].
    match goal with
    | |- _ <= get_max_checkouts ?q /\ _ =>
        change (get_max_checkouts q) with (get_max_checkouts p)
    end.
    rewrite !length_app. simpl. destruct IH as [_ IH]. split; lia.
  - exact IH.
Qed.

Lemma patron_limit_invariant_witness :
  let p := snd (fst (checkout_item sample_premium sample_book env0)) in
  Z.of_nat (List.length (checked_out_items p)) <= get_max_checkouts p /\
  List.length (borrowing_history p) = List.length (checked_out_items p).
Proof.
  apply (patron_limit_invariant
           (p := snd (fst (checkout_item sample_premium sample_book env0)))).
  unfold sample_premium. apply plife_checkout_item. apply plife_new.
Defined.




(** Checking an item out and adding a notification never change the
    patron's id, name, email, join date, membership level, reserved
    items and fines: no operation of the patron charges a fine. *)
Theorem patron_operations_keep_account
    (self : Patron) (item : LibraryItem) (msg : string)
    (ty : NotificationType) (e : Env) :
  same_account self (snd (fst (checkout_item self item e))) /\
  same_account self (snd (fst (add_notification self msg ty e))) /\
  notifications (snd (fst (checkout_item self item e))) = notifications self /\
  checked_out_items (snd (fst (add_notification self msg ty e)))
  = checked_out_items self /\
  borrowing_history (snd (fst (add_notification self msg ty e)))
  = borrowing_history self.
Proof.
  unfold same_account.
  destruct (checkout_item_cases self item e) as [[_ Heq] | [_ Heq]];
    rewrite Heq; unfold add_notification; run_effects; repeat split.
Qed.

(** When the patron is below the tier limit and the item is Available,
    [process_checkout] succeeds: the item is Checked Out to the patron
    and is appended to the patron's items.  The clock is read four
    times; the due date in the patron's borrowing history comes from the
    second reading and the due date of the item from the third. *)
Theorem process_checkout_success
    (patron : Patron) (item : LibraryItem) (e : Env)
    (Hbelow : Z.of_nat (List.length (checked_out_items patron))
              < get_max_checkouts patron)
    (Havailable : status item = AVAILABLE) :
  let ok := fst (fst (fst (process_checkout patron item e))) in
  let patron' := snd (fst (fst (process_checkout patron item e))) in
  let item' := snd (fst (process_checkout patron item e)) in
  let e' := snd (process_checkout patron item e) in
  ok = true /\
  status item' = CHECKED_OUT /\
  current_patron item' = Some (person_id patron) /\
  checkout_count item' = checkout_count item + 1 /\
  checked_out_items patron' = checked_out_items patron ++ [oid item] /\
  due_date item' =
    Some (now (tick (tick e)) + timedelta_days (get_checkout_period item)) /\
  map br_due_date (borrowing_history patron') =
    map br_due_date (borrowing_history patron)
    ++ [now (tick e) + timedelta_days (get_checkout_period item)] /\
  ticks e' = (4 + ticks e)%nat.
Proof.
  cbv zeta. unfold process_checkout, bind, ret.
  destruct (checkout_item_cases patron item e) as [[_ Heq] | [Hge _]];
    [| lia].
  rewrite Heq. cbn [person_id].
  rewrite (checkout_available item _ _ Havailable). simpl.
  rewrite map_app. repeat split.
Qed.

Lemma process_checkout_success_witness :
  let ok := fst (fst (fst (process_checkout sample_premium sample_book env0))) in
  let patron' := snd (fst (fst (process_checkout sample_premium sample_book env0))) in
  let item' := snd (fst (process_checkout sample_premium sample_book env0)) in
  let e' := snd (process_checkout sample_premium sample_book env0) in
  ok = true /\
  status item' = CHECKED_OUT /\
  current_patron item' = Some (person_id sample_premium) /\
  checkout_count item' = checkout_count sample_book + 1 /\
  checked_out_items patron'
  = checked_out_items sample_premium ++ [oid sample_book] /\
  due_date item' =
    Some (now (tick (tick env0))
          + timedelta_days (get_checkout_period sample_book)) /\
  map br_due_date (borrowing_history patron') =
    map br_due_date (borrowing_history sample_premium)
    ++ [now (tick env0) + timedelta_days (get_checkout_period sample_book)] /\
  ticks e' = (4 + ticks env0)%nat.
Proof.
  apply (process_checkout_success sample_premium sample_book env0).
  - vm_compute. reflexivity.
  - reflexivity.
Defined.

(** ** Dictionaries *)

Section DictFacts.
Variable V : Type.
Implicit Types (d : dict V) (k : Z) (v : V).

Lemma dict_get_In d k v : dict_get k d = Some v -> In (k, v) d.
Proof.
  induction d as [| [k' v'] d IH]; simpl; [discriminate |].
  destruct (k =? k') eqn:E.
  - intro H. injection H as <-. apply Z.eqb_eq in E. subst. left. reflexivity.
  - intro H. right. apply IH. exact H.
Qed.

Lemma dict_get_None d k : dict_get k d = None <-> ~ In k (dict_keys d).
Proof.
  induction d as [| [k' v'] d IH]; simpl.
  - split; [intros _ [] | reflexivity].
  - destruct (k =? k') eqn:E.
    + apply Z.eqb_eq in E. subst. split; [discriminate |].
      intro H. exfalso. apply H. left. reflexivity.
    + apply Z.eqb_neq in E. rewrite IH. split.
      * intros H [Hk | Hin]; [apply E; symmetry; exact Hk | exact (H Hin)].
      * intros H Hin. apply H. right. exact Hin.
Qed.

Lemma dict_mem_false d k : dict_mem k d = false <-> ~ In k (dict_keys d).
Proof.
  unfold dict_mem. rewrite <- dict_get_None.
  destruct (dict_get k d); split; intro H; try reflexivity; discriminate H.
Qed.

Lemma dict_set_absent d k v :
  ~ In k (dict_keys d) -> dict_set k v d = d ++ [(k, v)].
Proof.
  induction d as [| [k' v'] d IH]; simpl; intro H; [reflexivity |].
  destruct (k =? k') eqn:E.
  - apply Z.eqb_eq in E. subst. exfalso. apply H. left. reflexivity.
  - rewrite IH; [reflexivity |]. intro Hin. apply H. right. exact Hin.
Qed.

Lemma dict_set_keys_present d k v :
  In k (dict_keys d) -> dict_keys (dict_set k v d) = dict_keys d.
Proof.
  induction d as [| [k' v'] d IH]; simpl; intro H; [destruct H |].
  destruct (k =? k') eqn:E; simpl; [reflexivity |].
  apply Z.eqb_neq in E. destruct H as [H | H]; [congruence |].
  rewrite IH by exact H. reflexivity.
Qed.

Lemma dict_set_NoDup d k v :
  NoDup (dict_keys d) -> NoDup (dict_keys (dict_set k v d)).
Proof.
  intro Hnd. destruct (in_dec Z.eq_dec k (dict_keys d)) as [Hin | Hout].
  - rewrite dict_set_keys_present by exact Hin. exact Hnd.
  - rewrite dict_set_absent by exact Hout. unfold dict_keys.
    rewrite map_app. simpl. apply NoDup_snoc; assumption.
Qed.

Lemma dict_set_In d k v k' v' :
  In (k', v') (dict_set k v d) -> (k' = k /\ v' = v) \/ In (k', v') d.
Proof.
  induction d as [| [k0 v0] d IH]; simpl.
  - intros [H | []]. injection H as <- <-. left. split; reflexivity.
  - destruct (k =? k0) eqn:E; simpl.
    + apply Z.eqb_eq in E. subst k0.
      intros [H | H]; [injection H as <- <-; left; split; reflexivity |].
      right. right. exact H.
    + intros [H | H]; [right; left; exact H |].
      destruct (IH H) as [Hl | Hr]; [left; exact Hl | right; right; exact Hr].
Qed.

Lemma dict_get_set d k v k' :
  dict_get k' (dict_set k v d) = if k' =? k then Some v else dict_get k' d.
Proof.
  induction d as [| [k0 v0] d IH]; simpl.
  - destruct (k' =? k); reflexivity.
  - destruct (k =? k0) eqn:E; simpl.
    + apply Z.eqb_eq in E. subst k0. destruct (k' =? k); reflexivity.
    + rewrite IH. destruct (k' =? k0) eqn:E'; [| reflexivity].
      apply Z.eqb_eq in E'. subst k0. rewrite Z.eqb_sym, E. reflexivity.
Qed.

Lemma dict_del_set d k v :
  ~ In k (dict_keys d) -> dict_del k (dict_set k v d) = d.
Proof.
  induction d as [| [k0 v0] d IH]; simpl; intro H.
  - rewrite Z.eqb_refl. reflexivity.
  - destruct (k =? k0) eqn:E.
    + apply Z.eqb_eq in E. subst. exfalso. apply H. left. reflexivity.
    + simpl. rewrite E, IH; [reflexivity |].
      intro Hin. apply H. right. exact Hin.
Qed.

Lemma dict_del_In d k x : In x (dict_del k d) -> In x d.
Proof.
  induction d as [| [k0 v0] d IH]; simpl; [intros [] |].
  destruct (k =? k0); simpl.
  - intro H. right. exact H.
  - intros [H | H]; [left; exact H | right; apply IH; exact H].
Qed.

Lemma dict_del_keys_In d k k' :
  In k' (dict_keys (dict_del k d)) -> In k' (dict_keys d).
Proof.
  unfold dict_keys. rewrite !in_map_iff.
  intros [x [Hx Hin]]. exists x. split; [exact Hx |].
  eapply dict_del_In. exact Hin.
Qed.

Lemma dict_del_NoDup d k :
  NoDup (dict_keys d) -> NoDup (dict_keys (dict_del k d)).
Proof.
  induction d as [| [k0 v0] d IH]; simpl; intro H; [constructor |].
  inversion H as [| ? ? Hnot Hnd]; subst.
  destruct (k =? k0); simpl; [exact Hnd |].
  constructor; [| apply IH; exact Hnd].
  intro Hin. apply Hnot. eapply dict_del_keys_In. exact Hin.
Qed.

Lemma dict_get_del d k k' :
  NoDup (dict_keys d) ->
  dict_get k' (dict_del k d) = if k' =? k then None else dict_get k' d.
Proof.
  induction d as [| [k0 v0] d IH]; simpl; intro H.
  - destruct (k' =? k); reflexivity.
  - inversion H as [| ? ? Hnot Hnd]; subst.
    destruct (k =? k0) eqn:E; simpl.
    + apply Z.eqb_eq in E. subst k0. destruct (k' =? k) eqn:E'.
      * apply Z.eqb_eq in E'. subst. apply dict_get_None. exact Hnot.
      * reflexivity.
    + rewrite IH by exact Hnd. destruct (k' =? k0) eqn:E0; [| reflexivity].
      apply Z.eqb_eq in E0. subst k0.
      rewrite Z.eqb_sym, E. reflexivity.
Qed.

End DictFacts.

(** ** Catalogs *)

Lemma set_items_same (c : Catalog) : set_items (items c) c = c.
Proof. destruct c. reflexivity. Qed.

Lemma item_step_item_id (i i' : LibraryItem) :
  item_step i i' -> item_id i' = item_id i.
Proof.
  destruct 1 as [i p e | i c e | i p].
  - apply (checkout_identity i p e).
  - apply (checkin_frame i c e).
  - apply (reserve_frame i p).
Qed.

Lemma patron_step_person_id (p p' : Patron) :
  patron_step p p' -> person_id p' = person_id p.
Proof.
  destruct 1 as [p item e | p msg ty e].
  - destruct (checkout_item_cases p item e) as [[_ Heq] | [_ Heq]];
      rewrite Heq; reflexivity.
  - reflexivity.
Qed.

Lemma load_construct_item_id (item_data : ItemData)
    (construct : M LibraryItem) (e : Env) :
  load_construct item_data = inr (Some construct) ->
  d_item_id item_data = Some (item_id (fst (construct e))).
Proof.
  unfold load_construct.
  destruct (String.eqb (get_or (d_type item_data) "Book") "Book");
    [| destruct (String.eqb (get_or (d_type item_data) "Book") "DVD");
       [| destruct (String.eqb (get_or (d_type item_data) "Book") "CD") ]];
    try discriminate;
    destruct (d_item_id item_data) as [id |]; simpl; try discriminate;
    destruct (d_title item_data) as [t |]; simpl; try discriminate;
    intro H; injection H as <-; reflexivity.
Qed.

Lemma load_restore_item_id (item_data : ItemData) (item item' : LibraryItem) :
  load_restore item_data item = inr item' -> item_id item' = item_id item.
Proof.
  unfold load_restore.
  destruct (ItemStatus_of_value (get_or (d_status item_data) "Available"));
    [discriminate |].
  intro H. injection H as <-. reflexivity.
Qed.

Lemma load_items_wf (l : list ItemData) :
  forall (its : dict LibraryItem) (e : Env),
    NoDup (dict_keys its) ->
    (forall k i, In (k, i) its -> item_id i = k) ->
    NoDup (dict_keys (snd (fst (load_items l its e)))) /\
    (forall k i, In (k, i) (snd (fst (load_items l its e))) -> item_id i = k).
Proof.
  induction l as [| item_data l IH]; intros its e Hnd Hid; simpl.
  - split; assumption.
  - destruct (load_construct item_data) as [ex | [construct |]]; simpl.
    + split; assumption.
    + unfold bind. destruct (construct e) as [item e'].
      destruct (load_restore item_data item) as [ex | item'] eqn:Hr; simpl.
      * split; assumption.
      * apply IH.
        -- apply dict_set_NoDup. exact Hnd.
        -- intros k i Hin. apply dict_set_In in Hin.
           destruct Hin as [[-> ->] | Hin]; [reflexivity | apply Hid, Hin].
    + apply IH; assumption.
Qed.

Lemma load_from_file_json (self : Catalog) (filename : string) (e : Env)
    (data : FileData) :
  assoc filename (files e) = Some (Json data) ->
  load_from_file self filename e =
    let r := load_items (get_or (d_items data) []) [] e in
    match fst (fst r) with
    | inl ex =>
        (false,
         mkCatalog (snd (fst r)) [] (next_item_id self) (next_patron_id self)
                   (next_staff_id self),
         snd (print (ErrorLoading ex) (snd r)))
    | inr _ =>
        let next_ids := get_or (d_next_ids data) (mkNextIds None None None) in
        (true,
         mkCatalog (snd (fst r)) [] (get_or (d_item next_ids) 1)
                   (get_or (d_patron next_ids) 1)
                   (get_or (d_staff next_ids) 1),
         snd (print (DataLoaded filename) (snd r)))
    end.
Proof.
  intro Hfile. unfold load_from_file, read_file, bind. rewrite Hfile.
  cbv zeta. cbn [items set_items set_patrons].
  destruct (load_items (get_or (d_items data) []) [] e) as [[outcome its] e1].
  cbn [fst snd]. destruct outcome; reflexivity.
Qed.

Lemma load_from_file_no_document (self : Catalog) (filename : string)
    (e : Env) :
  (forall data, assoc filename (files e) <> Some (Json data)) ->
  fst (load_from_file self filename e) = (false, self).
Proof.
  intro H. unfold load_from_file, read_file, bind.
  destruct (assoc filename (files e)) as [[| data] |]; try reflexivity.
  exfalso. apply (H data). reflexivity.
Qed.

Lemma reachable_wf (c : Catalog) : catalog_reachable c -> catalog_wf c.
Proof.
  induction 1 as [| c item Hc IH | c k Hc IH | c n em lvl e Hc IH
                  | c filename e Hc IH | c k i i' Hc IH Hget Hstep
                  | c k p p' Hc IH Hget Hstep].
  - unfold catalog_wf. simpl.
    split; [constructor |]. split; [intros ? ? [] |].
    split; [constructor | intros ? ? []].
  - destruct IH as (Hnd & Hid & Hp). unfold add_item.
    destruct (negb (dict_mem (item_id item) (items c))); simpl;
      [| exact (conj Hnd (conj Hid Hp))].
    split; [apply dict_set_NoDup; exact Hnd |].
    split; [| exact Hp].
    intros k i Hin. apply dict_set_In in Hin.
    destruct Hin as [[-> ->] | Hin]; [reflexivity | apply Hid, Hin].
  - destruct IH as (Hnd & Hid & Hp). unfold remove_item.
    destruct (dict_mem k (items c)); simpl;
      [| exact (conj Hnd (conj Hid Hp))].
    split; [apply dict_del_NoDup; exact Hnd |].
    split; [| exact Hp].
    intros k' i Hin. apply Hid. eapply dict_del_In. exact Hin.
  - destruct IH as (Hnd & Hid & Hpnd & Hp). unfold add_patron. run_effects.
    split; [exact Hnd |]. split; [exact Hid |].
    split; [apply dict_set_NoDup; exact Hpnd |].
    intros k p Hin. apply dict_set_In in Hin.
    destruct Hin as [[-> ->] | Hin]; simpl; [split; [reflexivity | lia] |].
    destruct (Hp k p Hin) as [Hk Hlt]. split; [exact Hk | lia].
  - destruct (assoc filename (files e)) as [[| data] |] eqn:Hfile.
    + rewrite load_from_file_no_document; [exact IH |].
      intros data. rewrite Hfile. discriminate.
    + rewrite (load_from_file_json c filename e Hfile). cbv zeta.
      destruct (@load_items_wf (get_or (d_items data) []) [] e)
        as [Hnd Hid]; [constructor | intros ? ? [] |].
      destruct (fst (fst (load_items (get_or (d_items data) []) [] e)));
        simpl; (split; [exact Hnd |]; split; [exact Hid |];
                split; [constructor | intros ? ? []]).
    + rewrite load_from_file_no_document; [exact IH |].
      intros data. rewrite Hfile. discriminate.
  - destruct IH as (Hnd & Hid & Hp). simpl.
    split; [apply dict_set_NoDup; exact Hnd |]. split; [| exact Hp].
    intros k' j Hin. apply dict_set_In in Hin.
    destruct Hin as [[-> ->] | Hin]; [| apply Hid, Hin].
    rewrite (item_step_item_id Hstep). apply Hid.
    apply dict_get_In. exact Hget.
  - destruct IH as (Hnd & Hid & Hpnd & Hp). simpl.
    split; [exact Hnd |]. split; [exact Hid |].
    split; [apply dict_set_NoDup; exact Hpnd |].
    intros k' q Hin. apply dict_set_In in Hin.
    destruct Hin as [[-> ->] | Hin]; [| apply Hp, Hin].
    rewrite (patron_step_person_id Hstep). apply Hp.
    apply dict_get_In. exact Hget.
Qed.

Lemma sample_catalog_reachable : catalog_reachable sample_catalog.
Proof.
  unfold sample_catalog.
  apply reach_add_item. apply reach_add_item. apply reach_new.
Qed.

(** [add_item] succeeds exactly when no item has the id yet.  Then the
    item is found under its id, it comes last in the order of the
    catalog and every other id finds what it found before; otherwise the
    catalog is unchanged and the item already there is kept. *)
Theorem add_item_outcome (self : Catalog) (item : LibraryItem) :
  let ok := fst (add_item self item) in
  let self' := snd (add_item self item) in
  (ok = true <-> dict_get (item_id item) (items self) = None) /\
  (ok = true ->
     dict_get (item_id item) (items self') = Some item /\
     dict_values (items self') = dict_values (items self) ++ [item] /\
     (forall k, k <> item_id item ->
                dict_get k (items self') = dict_get k (items self))) /\
  (ok = false -> self' = self) /\
  patrons self' = patrons self.
Proof.
  cbv zeta. unfold add_item, dict_mem.
  destruct (dict_get (item_id item) (items self)) as [old |] eqn:Hget; simpl.
  - repeat split; try discriminate.
  - repeat split; try discriminate.
    + rewrite dict_get_set, Z.eqb_refl. reflexivity.
    + apply dict_get_None in Hget. rewrite dict_set_absent by exact Hget.
      unfold dict_values. rewrite map_app. reflexivity.
    + intros k Hk. rewrite dict_get_set.
      apply Z.eqb_neq in Hk. rewrite Hk. reflexivity.
Qed.

(** Adding an item under an id that is not in use and removing that id
    again gives back the catalog as it was. *)
Theorem add_then_remove_item (self : Catalog) (item : LibraryItem)
    (Hfree : dict_get (item_id item) (items self) = None) :
  remove_item (snd (add_item self item)) (item_id item) = (true, self).
Proof.
  unfold add_item, remove_item, dict_mem. rewrite Hfree. simpl.
  rewrite dict_get_set, Z.eqb_refl.
  apply dict_get_None in Hfree. rewrite dict_del_set by exact Hfree.
  destruct self. reflexivity.
Qed.

Lemma add_then_remove_item_witness :
  remove_item (snd (add_item sample_catalog sample_dvd)) (item_id sample_dvd)
  = (true, sample_catalog).
Proof.
  apply (add_then_remove_item sample_catalog sample_dvd). reflexivity.
Defined.

(** In a reachable catalog [remove_item] succeeds exactly when the id
    is in use; afterwards the id finds nothing and every other id finds
    what it found before.  Removing an id that is not in use changes
    nothing. *)
Theorem remove_item_outcome (self : Catalog) (k : Z)
    (Hreach : catalog_reachable self) :
  let ok := fst (remove_item self k) in
  let self' := snd (remove_item self k) in
  (ok = true <-> dict_get k (items self) <> None) /\
  dict_get k (items self') = None /\
  (forall k', k' <> k ->
              dict_get k' (items self') = dict_get k' (items self)) /\
  (ok = false -> self' = self).
Proof.
  cbv zeta. destruct (reachable_wf Hreach) as (Hnd & _).
  unfold remove_item, dict_mem.
  destruct (dict_get k (items self)) as [old |] eqn:Hget; simpl.
  - repeat split; try discriminate.
    + rewrite dict_get_del by exact Hnd. rewrite Z.eqb_refl. reflexivity.
    + intros k' Hk. rewrite dict_get_del by exact Hnd.
      apply Z.eqb_neq in Hk. rewrite Hk. reflexivity.
  - repeat split; try discriminate; try assumption.
    intro H. exfalso. apply H. reflexivity.
Qed.

Lemma remove_item_outcome_witness :
  let ok := fst (remove_item sample_catalog 1) in
  let self' := snd (remove_item sample_catalog 1) in
  (ok = true <-> dict_get 1 (items sample_catalog) <> None) /\
  dict_get 1 (items self') = None /\
  (forall k', k' <> 1 ->
              dict_get k' (items self') = dict_get k' (items sample_catalog)) /\
  (ok = false -> self' = sample_catalog).
Proof.
  apply (remove_item_outcome 1 sample_catalog_reachable).
Defined.

(** In a reachable catalog every item is filed under its own id and
    every patron under its own id, so a lookup by id returns an object
    with that id; the patron ids in use are below the next one to be
    given out. *)
Theorem catalog_entries_keyed_by_id (c : Catalog)
    (Hreach : catalog_reachable c) :
  (forall k i, dict_get k (items c) = Some i -> item_id i = k) /\
  (forall k p, dict_get k (patrons c) = Some p ->
               person_id p = k /\ k < next_patron_id c) /\
  NoDup (dict_keys (items c)) /\ NoDup (dict_keys (patrons c)).
Proof.
  destruct (reachable_wf Hreach) as (Hnd & Hid & Hpnd & Hp).
  repeat split; try assumption.
  - intros k i Hget. apply Hid. apply dict_get_In. exact Hget.
  - apply (Hp k p). apply dict_get_In. assumption.
  - apply (Hp k p). apply dict_get_In. assumption.
Qed.

Lemma catalog_entries_keyed_by_id_witness :
  (forall k i, dict_get k (items sample_catalog) = Some i -> item_id i = k) /\
  (forall k p, dict_get k (patrons sample_catalog) = Some p ->
               person_id p = k /\ k < next_patron_id sample_catalog) /\
  NoDup (dict_keys (items sample_catalog)) /\
  NoDup (dict_keys (patrons sample_catalog)).
Proof.
  apply (catalog_entries_keyed_by_id sample_catalog_reachable).
Defined.

(** In a reachable catalog [add_patron] gives the new patron an id that
    no patron has: the patron is filed under the next patron id, which
    then grows by one, and no patron already registered is replaced.
    The new patron holds no item, owes no fine and has no
    notification. *)
Theorem add_patron_fresh_id
    (self : Catalog) (name' email' level : string) (e : Env)
    (Hreach : catalog_reachable self) :
  let patron := fst (fst (add_patron self name' email' level e)) in
  let self' := snd (fst (add_patron self name' email' level e)) in
  person_id patron = next_patron_id self /\
  dict_get (person_id patron) (patrons self) = None /\
  dict_get (person_id patron) (patrons self') = Some patron /\
  (forall k, k <> person_id patron ->
             dict_get k (patrons self') = dict_get k (patrons self)) /\
  next_patron_id self' = next_patron_id self + 1 /\
  items self' = items self /\
  checked_out_items patron = [] /\ fines patron = 0%float /\
  notifications patron = [] /\ membership_level patron = level.
Proof.
  cbv zeta. destruct (reachable_wf Hreach) as (_ & _ & _ & Hp).
  unfold add_patron. run_effects.
  repeat split.
  - destruct (dict_get (next_patron_id self) (patrons self)) as [p |] eqn:Hget;
      [| reflexivity].
    apply dict_get_In in Hget. destruct (Hp _ _ Hget) as [_ Hlt]. lia.
  - rewrite dict_get_set, Z.eqb_refl. reflexivity.
  - intros k Hk. rewrite dict_get_set.
    apply Z.eqb_neq in Hk. rewrite Hk. reflexivity.
Qed.

Lemma add_patron_fresh_id_witness :
  let patron := fst (fst (add_patron sample_catalog "A" "a@x" "Student" env0)) in
  let self' := snd (fst (add_patron sample_catalog "A" "a@x" "Student" env0)) in
  person_id patron = next_patron_id sample_catalog /\
  dict_get (person_id patron) (patrons sample_catalog) = None /\
  dict_get (person_id patron) (patrons self') = Some patron /\
  (forall k, k <> person_id patron ->
             dict_get k (patrons self') = dict_get k (patrons sample_catalog)) /\
  next_patron_id self' = next_patron_id sample_catalog + 1 /\
  items self' = items sample_catalog /\
  checked_out_items patron = [] /\ fines patron = 0%float /\
  notifications patron = [] /\ membership_level patron = "Student".
Proof.
  apply (add_patron_fresh_id "A" "a@x" "Student" env0
           sample_catalog_reachable).
Defined.

(** ** Saving and loading *)

Lemma ItemStatus_value_of (s : ItemStatus) :
  ItemStatus_of_value (ItemStatus_value s) = inr s.
Proof. destruct s; reflexivity. Qed.

(** The status names round-trip: every status is read back from its
    value, and a string is accepted only if it is the value of the
    status it is read as, so exactly five strings are accepted. *)
Theorem ItemStatus_value_roundtrip (s : ItemStatus) (v : string) :
  ItemStatus_of_value (ItemStatus_value s) = inr s /\
  (ItemStatus_of_value v = inr s <-> v = ItemStatus_value s) /\
  (ItemStatus_of_value v = inl (ValueError v) <->
   forall s', v <> ItemStatus_value s').
Proof.
  split; [apply ItemStatus_value_of |].
  assert (Hdec : forall s0, ItemStatus_of_value v = inr s0 ->
                            v = ItemStatus_value s0).
  { intros s0. unfold ItemStatus_of_value, ItemStatus_members.
    cbn [find ItemStatus_value].
    repeat match goal with
           | |- context [String.eqb ?a v] =>
               let E := fresh "E" in
               destruct (String.eqb a v) eqn:E;
               [apply String.eqb_eq in E;
                intro H; injection H as <-; symmetry; exact E |]
           end.
    discriminate. }
  split; [split; [apply Hdec | intros ->; apply ItemStatus_value_of] |].
  split.
  - intros Herr s' Hv. subst v. rewrite ItemStatus_value_of in Herr.
    discriminate Herr.
  - intro Hnone. destruct (ItemStatus_of_value v) as [ex | s0] eqn:E.
    + unfold ItemStatus_of_value in E.
      destruct (find _ ItemStatus_members); [discriminate |].
      symmetry. exact E.
    + exfalso. apply (Hnone s0). apply Hdec. reflexivity.
Qed.

Lemma load_items_app (l1 l2 : list ItemData) :
  forall (its : dict LibraryItem) (e : Env),
    load_items (l1 ++ l2) its e =
      match fst (fst (load_items l1 its e)) with
      | inl _ => load_items l1 its e
      | inr _ => load_items l2 (snd (fst (load_items l1 its e)))
                            (snd (load_items l1 its e))
      end.
Proof.
  induction l1 as [| item_data l1 IH]; intros its e; simpl; [reflexivity |].
  destruct (load_construct item_data) as [ex | [construct |]]; simpl.
  - reflexivity.
  - unfold bind. destruct (construct e) as [item e'].
    destruct (load_restore item_data item) as [ex | item']; simpl.
    + reflexivity.
    + apply IH.
  - apply IH.
Qed.

Lemma load_construct_quiet (item_data : ItemData) (construct : M LibraryItem)
    (e : Env) :
  load_construct item_data = inr (Some construct) ->
  stdout (snd (construct e)) = stdout e /\
  files (snd (construct e)) = files e /\
  clock (snd (construct e)) = clock e.
Proof.
  unfold load_construct.
  destruct (String.eqb (get_or (d_type item_data) "Book") "Book");
    [| destruct (String.eqb (get_or (d_type item_data) "Book") "DVD");
       [| destruct (String.eqb (get_or (d_type item_data) "Book") "CD") ]];
    try discriminate;
    destruct (d_item_id item_data) as [id |]; simpl; try discriminate;
    destruct (d_title item_data) as [t |]; simpl; try discriminate;
    intro H; injection H as <-; repeat split.
Qed.

Lemma load_items_quiet (l : list ItemData) :
  forall (its : dict LibraryItem) (e : Env),
    stdout (snd (load_items l its e)) = stdout e /\
    files (snd (load_items l its e)) = files e /\
    clock (snd (load_items l its e)) = clock e.
Proof.
  induction l as [| item_data l IH]; intros its e; simpl.
  - repeat split.
  - destruct (load_construct item_data) as [ex | [construct |]] eqn:Hc; simpl.
    + repeat split.
    + unfold bind.
      destruct (load_construct_quiet item_data e Hc) as (Ho & Hf & Hk).
      destruct (construct e) as [item e']. simpl in Ho, Hf, Hk.
      destruct (load_restore item_data item) as [ex | item']; simpl.
      * repeat split; assumption.
      * destruct (IH (dict_set (item_id item') item' its) e') as (Ho' & Hf' & Hk').
        rewrite Ho', Hf', Hk'. repeat split; assumption.
    + apply IH.
Qed.

Lemma load_items_bad_record (bad : ItemData) (rest : list ItemData)
    (its : dict LibraryItem) (e : Env) (ex : exn) :
  record_error bad = Some ex ->
  fst (load_items (bad :: rest) its e) = (inl ex, its).
Proof.
  unfold record_error. simpl.
  destruct (load_construct bad) as [ex' | [construct |]]; simpl.
  - intro H. injection H as <-. reflexivity.
  - unfold bind. destruct (construct e) as [item e']. unfold load_restore.
    destruct (ItemStatus_of_value (get_or (d_status bad) "Available"));
      [| discriminate].
    intro H. injection H as <-. reflexivity.
  - discriminate.
Qed.

Lemma load_saved_item (i : LibraryItem) (rest : list ItemData)
    (its : dict LibraryItem) (e : Env) :
  exists i' e',
    load_items (save_item i :: rest) its e =
      load_items rest (dict_set (item_id i) i' its) e' /\
    restored_from i i' /\
    match cls i with
    | Book => author i' = Some (get_or (author i) "") /\
              isbn i' = Some (get_or (isbn i) "") /\
              edition i' = Some 1
    | DVD => director i' = Some (get_or (director i) "") /\
             runtime i' = Some (get_or (runtime i) 0)
    | CD => artist i' = Some "" /\ tracks i' = Some 0 /\
            author i' = Some ""
    end.
Proof.
  destruct i as [o c id t cat st cnt hist holder due q added
                 au isb ed dir rt art tr].
  cbn [cls item_id]. unfold restored_from.
  destruct c; cbn [load_items];
    unfold load_construct, save_item, isinstance, load_restore;
    cbn -[ItemStatus_of_value ItemStatus_value load_items];
    rewrite ItemStatus_value_of;
    unfold bind; cbn -[load_items];
    eexists; eexists; (split; [reflexivity |]); cbn; repeat split.
Qed.

Lemma lifecycle_attributes (i : LibraryItem) :
  lifecycle i ->
  match cls i with
  | Book => author i <> None /\ isbn i <> None /\ edition i <> None
  | DVD => director i <> None /\ runtime i <> None
  | CD => artist i <> None /\ tracks i <> None /\ author i <> None
  end.
Proof.
  induction 1 as [| | | i p e Hi IH | i c e Hi IH | i p Hi IH];
    try (simpl; repeat split; discriminate).
  - destruct (checkout_identity i p e)
      as (_ & -> & _ & _ & _ & _ & -> & -> & -> & -> & -> & -> & ->).
    exact IH.
  - destruct (proj2 (proj2 (checkin_frame i c e)))
      as (_ & -> & _ & _ & _ & _ & -> & -> & -> & -> & -> & -> & ->).
    exact IH.
  - destruct (proj2 (proj2 (proj2 (proj2 (proj2 (reserve_frame i p))))))
      as (_ & -> & _ & _ & _ & _ & -> & -> & -> & -> & -> & -> & ->).
    exact IH.
Qed.

Lemma get_or_present {A} (o : option A) (default : A) :
  o <> None -> Some (get_or o default) = o.
Proof. destruct o; [reflexivity | intro H; contradiction H; reflexivity]. Qed.

(** An item that is saved and loaded back alone keeps its id, title,
    category, class, status and checkout count, and loses its holder,
    due date, reservations and history.  Of the subclass attributes, a
    Book keeps author and ISBN and gets edition 1; a DVD keeps director
    and runtime; a CD comes back with an empty artist and no tracks,
    because its record carries the fields of a Book. *)
Theorem save_then_load_item (i : LibraryItem) (e : Env) :
  lifecycle i ->
  exists i' e',
    load_items [save_item i] [] e = (inr tt, [(item_id i, i')], e') /\
    restored_from i i' /\
    match cls i with
    | Book => author i' = author i /\ isbn i' = isbn i /\
              edition i' = Some 1
    | DVD => director i' = director i /\ runtime i' = runtime i
    | CD => artist i' = Some "" /\ tracks i' = Some 0
    end.
Proof.
  intro Hlife. pose proof (lifecycle_attributes Hlife) as Hattr.
  destruct (load_saved_item i [] [] e) as (i' & e' & Hload & Hres & Hsub).
  exists i', e'. split; [exact Hload |]. split; [exact Hres |].
  destruct (cls i).
  - destruct Hattr as (Ha & Hi & _). destruct Hsub as (-> & -> & ->).
    rewrite !get_or_present by assumption. repeat split.
  - destruct Hattr as (Hd & Hr). destruct Hsub as (-> & ->).
    rewrite !get_or_present by assumption. repeat split.
  - destruct Hsub as (-> & -> & _). repeat split.
Qed.

Lemma save_then_load_item_witness :
  exists i' e',
    load_items [save_item sample_cd] [] env0
    = (inr tt, [(item_id sample_cd, i')], e') /\
    restored_from sample_cd i' /\
    match cls sample_cd with
    | Book => author i' = author sample_cd /\ isbn i' = isbn sample_cd /\
              edition i' = Some 1
    | DVD => director i' = director sample_cd /\ runtime i' = runtime sample_cd
    | CD => artist i' = Some "" /\ tracks i' = Some 0
    end.
Proof.
  apply (save_then_load_item env0 (i := sample_cd)).
  unfold sample_cd. apply life_CD.
Defined.






Lemma load_items_ok_iff (l : list ItemData) :
  forall (its : dict LibraryItem) (e : Env),
    fst (fst (load_items l its e)) = inr tt <->
    Forall (fun item_data => record_error item_data = None) l.
Proof.
  induction l as [| item_data l IH]; intros its e.
  - simpl. split; [constructor | reflexivity].
  - rewrite Forall_cons_iff. simpl. unfold record_error.
    destruct (load_construct item_data) as [ex | [construct |]]; simpl.
    + split; [discriminate | intros [H _]; discriminate H].
    + unfold bind. destruct (construct e) as [item e']. unfold load_restore.
      destruct (ItemStatus_of_value (get_or (d_status item_data) "Available"))
        as [ex | s]; simpl.
      * split; [discriminate | intros [H _]; discriminate H].
      * rewrite IH. split; [intro H; split; [reflexivity | exact H] |].
        intros [_ H]. exact H.
    + rewrite IH. split; [intro H; split; [reflexivity | exact H] |].
      intros [_ H]. exact H.
Qed.



(** A record that raises ends the load at once.  The call returns
    [False] and prints the error; the catalog is left with the items of
    the records before the faulty one and without patrons, and the
    records after it are not read even when they are sound. *)
Theorem load_stops_at_first_bad_record
    (self : Catalog) (filename : string) (e : Env) (data : FileData)
    (good rest : list ItemData) (bad : ItemData) (ex : exn)
    (Hfile : assoc filename (files e) = Some (Json data))
    (Hitems : d_items data = Some (good ++ bad :: rest))
    (Hgood : Forall (fun item_data => record_error item_data = None) good)
    (Hbad : record_error bad = Some ex) :
  let r := load_from_file self filename e in
  fst (fst r) = false /\
  items (snd (fst r)) = snd (fst (load_items good [] e)) /\
  patrons (snd (fst r)) = [] /\
  stdout (snd r) = stdout e ++ [ErrorLoading ex].
Proof.
  cbv zeta. rewrite (load_from_file_json self filename e Hfile). cbv zeta.
  rewrite Hitems. cbn [get_or].
  pose proof (load_items_quiet (good ++ bad :: rest) [] e) as (Hquiet & _).
  rewrite load_items_app in *.
  apply (load_items_ok_iff good [] e) in Hgood. rewrite Hgood in *.
  pose proof (@load_items_bad_record bad rest
                (snd (fst (load_items good [] e)))
                (snd (load_items good [] e)) ex Hbad) as Hstop.
  destruct (load_items (bad :: rest) (snd (fst (load_items good [] e)))
              (snd (load_items good [] e))) as [[outcome its] e'].
  cbn [fst snd] in *. injection Hstop as -> ->.
  simpl. rewrite Hquiet. repeat split.
Qed.

Lemma load_stops_at_first_bad_record_witness :
  let file := mkFileData (Some ([untagged_record]
                                ++ nameless_record :: [vinyl_record]))
                         None None in
  let e := mkEnv (clock env0) 0 [] 1 [("library_data.json", Json file)] in
  let r := load_from_file sample_catalog "library_data.json" e in
  fst (fst r) = false /\
  items (snd (fst r)) = snd (fst (load_items [untagged_record] [] e)) /\
  patrons (snd (fst r)) = [] /\
  stdout (snd r) = stdout e ++ [ErrorLoading (KeyError "item_id")].
Proof.
  apply (@load_stops_at_first_bad_record sample_catalog "library_data.json"
           (mkEnv (clock env0) 0 [] 1
                  [("library_data.json",
                    Json (mkFileData (Some ([untagged_record]
                                            ++ nameless_record :: [vinyl_record]))
                                     None None))])
           (mkFileData (Some ([untagged_record]
                              ++ nameless_record :: [vinyl_record]))
                       None None)
           [untagged_record] [vinyl_record] nameless_record
           (KeyError "item_id")).
  - reflexivity.
  - reflexivity.
  - repeat constructor.
  - reflexivity.
Defined.

(** ** Search *)


Lemma search_loop_filter (lower : string -> string)
    (search_term search_by : string) (its : list LibraryItem) :
  forall results,
    search_loop lower search_term search_by its results =
      results ++ map get_item_info
                     (filter (search_matches lower search_term search_by) its).
Proof.
  induction its as [| item its IH]; intro results; simpl.
  - rewrite app_nil_r. reflexivity.
  - rewrite IH. unfold search_matches.
    destruct (String.eqb_spec search_by "title") as [-> | Ht]; simpl.
    + destruct (str_in (lower search_term) (lower (title item))); simpl;
        rewrite <- ?app_assoc; reflexivity.
    + destruct (String.eqb_spec search_by "author") as [-> | Ha]; simpl.
      * destruct (author item) as [a |]; simpl;
          [destruct (str_in (lower search_term) (lower a)); simpl |];
          rewrite <- ?app_assoc; reflexivity.
      * destruct (String.eqb search_by "category"
                  && str_in (lower search_term) (lower (category item)));
          simpl; rewrite <- ?app_assoc; reflexivity.
Qed.


(** [search_items] reports each item of the catalog that matches, once
    and in the order of the catalog, and nothing else: by title or by
    category when the lower-cased term occurs in the lower-cased
    attribute, by author when the item has an author and the term occurs
    in it. *)
Theorem search_items_reports_matches (lower : string -> string)
    (self : Catalog) (search_term search_by : string) :
  search_items lower self search_term search_by =
    map get_item_info
        (filter (search_matches lower search_term search_by)
                (dict_values (items self))) /\
  (List.length (search_items lower self search_term search_by)
   <= List.length (items self))%nat.
Proof.
  unfold search_items. rewrite search_loop_filter. simpl.
  split; [reflexivity |].
  rewrite length_map. unfold dict_values.
  rewrite <- (length_map snd (items self)). apply filter_length_le.
Qed.



(** ** Reports *)

Lemma fold_left_add (l : list Z) (a : Z) :
  fold_left Z.add l a = a + fold_left Z.add l 0.
Proof.
  revert a. induction l as [| x l IH]; intro a; simpl; [lia |].
  rewrite (IH (a + x)), (IH x). lia.
Qed.

Lemma sum_Z_cons (x : Z) (l : list Z) : sum_Z (x :: l) = x + sum_Z l.
Proof. unfold sum_Z. simpl. apply fold_left_add. Qed.

Lemma count_status_length (s : ItemStatus) (its : list LibraryItem) :
  count_status s its =
    Z.of_nat (List.length
                (filter (fun item => ItemStatus_eqb (status item) s) its)).
Proof.
  unfold count_status.
  induction (filter (fun item => ItemStatus_eqb (status item) s) its)
    as [| x l IH]; [reflexivity |].
  cbn [map List.length]. rewrite sum_Z_cons, IH. lia.
Qed.

Lemma assoc_counter_set (k k' : string) (v : Z) (d : counter) :
  assoc k (counter_set k' v d) =
    if String.eqb k k' then Some v else assoc k d.
Proof.
  induction d as [| [k0 v0] d IH]; simpl.
  - reflexivity.
  - destruct (String.eqb_spec k' k0) as [-> | Hne]; simpl.
    + destruct (String.eqb k k0); reflexivity.
    + rewrite IH. destruct (String.eqb_spec k k0) as [-> | Hne'].
      * destruct (String.eqb_spec k0 k') as [<- | _];
          [contradiction Hne; reflexivity | reflexivity].
      * reflexivity.
Qed.

Lemma sum_counter_set (k : string) (v : Z) (d : counter) :
  sum_Z (map snd (counter_set k v d)) =
    sum_Z (map snd d) - get_or (assoc k d) 0 + v.
Proof.
  induction d as [| [k0 v0] d IH]; simpl.
  - unfold sum_Z. simpl. lia.
  - destruct (String.eqb k k0); simpl.
    + rewrite !sum_Z_cons. lia.
    + rewrite !sum_Z_cons, IH. lia.
Qed.

Lemma inventory_loop_counts (its : list LibraryItem) :
  forall (by_category by_type : counter),
    let r := inventory_loop its by_category by_type in
    sum_Z (map snd (fst r))
    = sum_Z (map snd by_category) + Z.of_nat (List.length its) /\
    sum_Z (map snd (snd r))
    = sum_Z (map snd by_type) + Z.of_nat (List.length its) /\
    (forall c,
       get_or (assoc c (fst r)) 0 =
         get_or (assoc c by_category) 0
         + Z.of_nat (List.length
                       (filter (fun item => String.eqb (category item) c)
                               its))) /\
    (forall t,
       get_or (assoc t (snd r)) 0 =
         get_or (assoc t by_type) 0
         + Z.of_nat (List.length
                       (filter (fun item =>
                                  String.eqb (class_name (cls item)) t)
                               its))).
Proof.
  induction its as [| item its IH]; intros by_category by_type; cbv zeta.
  - simpl. repeat split; intros; lia.
  - cbn [inventory_loop].
    destruct (IH (counter_incr (category item) by_category)
                 (counter_incr (class_name (cls item)) by_type))
      as (Hc & Ht & Hcat & Hty).
    cbv zeta in Hc, Ht, Hcat, Hty. unfold counter_incr in *.
    rewrite Hc, Ht, !sum_counter_set. cbn [List.length].
    split; [lia |]. split; [lia |]. split.
    + intro c. rewrite Hcat, assoc_counter_set. cbn [filter].
      rewrite (String.eqb_sym (category item) c).
      destruct (String.eqb_spec c (category item)) as [-> | Hne];
        cbn [get_or List.length]; lia.
    + intro t. rewrite Hty, assoc_counter_set. cbn [filter].
      rewrite (String.eqb_sym (class_name (cls item)) t).
      destruct (String.eqb_spec t (class_name (cls item))) as [-> | Hne];
        cbn [get_or List.length]; lia.
Qed.

Lemma filter_disjoint_length {A} (p q : A -> bool) (l : list A) :
  (forall x, p x = true -> q x = false) ->
  (List.length (filter p l) + List.length (filter q l) <= List.length l)%nat.
Proof.
  intro Hdis. induction l as [| x l IH]; simpl; [lia |].
  destruct (p x) eqn:Hp.
  - rewrite (Hdis x Hp). simpl. lia.
  - destruct (q x); simpl; lia.
Qed.

(** The inventory report counts every item once in each breakdown: the
    counts by category add up to the number of items, and so do the
    counts by type; the count of a category, or of a type, is the
    number of items of that category, or class.  The Available and the
    Checked Out items together are at most all items: an item in another
    status is in neither count. *)
Theorem inventory_report_counts (self : Catalog) :
  let report := get_inventory_report self in
  let values := dict_values (items self) in
  inv_total_items report = Z.of_nat (List.length values) /\
  sum_Z (map snd (inv_by_category report)) = inv_total_items report /\
  sum_Z (map snd (inv_by_type report)) = inv_total_items report /\
  (forall c, get_or (assoc c (inv_by_category report)) 0 =
             Z.of_nat (List.length
                         (filter (fun item => String.eqb (category item) c)
                                 values))) /\
  (forall k, get_or (assoc (class_name k) (inv_by_type report)) 0 =
             Z.of_nat (List.length
                         (filter (fun item => ItemClass_eqb (cls item) k)
                                 values))) /\
  0 <= inv_available_items report /\
  0 <= inv_checked_out_items report /\
  inv_available_items report + inv_checked_out_items report
  <= inv_total_items report.
Proof.
  cbv zeta. unfold get_inventory_report. cbn [inv_total_items
    inv_by_category inv_by_type inv_available_items inv_checked_out_items].
  destruct (inventory_loop_counts (dict_values (items self)) [] [])
    as (Hc & Ht & Hcat & Hty). cbv zeta in Hc, Ht, Hcat, Hty.
  assert (Hlen : List.length (dict_values (items self))
                 = List.length (items self))
    by (unfold dict_values; apply length_map).
  rewrite Hc, Ht, Hlen, !count_status_length.
  split; [reflexivity |]. split; [reflexivity |]. split; [reflexivity |].
  split; [intro c; rewrite Hcat; reflexivity |].
  split.
  - intro k. rewrite Hty. cbn [assoc get_or]. rewrite Z.add_0_l.
    f_equal. f_equal.
    apply filter_ext. intro item. destruct (cls item), k; reflexivity.
  - split; [lia |]. split; [lia |].
    pose proof (filter_disjoint_length
                  (fun item => ItemStatus_eqb (status item) AVAILABLE)
                  (fun item => ItemStatus_eqb (status item) CHECKED_OUT)
                  (dict_values (items self))) as Hdis.
    rewrite Hlen in Hdis.
    assert (Hd : forall x : LibraryItem,
               ItemStatus_eqb (status x) AVAILABLE = true ->
               ItemStatus_eqb (status x) CHECKED_OUT = false)
      by (intro x; destruct (status x); simpl; congruence).
    specialize (Hdis Hd). lia.
Qed.

Lemma insert_desc_perm (x : LibraryItem) (l : list LibraryItem) :
  Permutation (insert_desc x l) (x :: l).
Proof.
  induction l as [| y r IH]; simpl; [apply Permutation_refl |].
  destruct (checkout_count x <? checkout_count y).
  - eapply Permutation_trans; [apply perm_skip, IH | apply perm_swap].
  - apply Permutation_refl.
Qed.

Lemma sorted_desc_perm (l : list LibraryItem) :
  Permutation (sorted_desc l) l.
Proof.
  induction l as [| x l IH]; simpl; [constructor |].
  eapply Permutation_trans; [apply insert_desc_perm |].
  apply perm_skip. exact IH.
Qed.

Lemma insert_desc_sorted (x : LibraryItem) (l : list LibraryItem) :
  StronglySorted more_popular l ->
  StronglySorted more_popular (insert_desc x l).
Proof.
  induction 1 as [| y r Hr IH Hy]; simpl.
  - constructor; constructor.
  - destruct (checkout_count x <? checkout_count y) eqn:E.
    + apply Z.ltb_lt in E. constructor; [exact IH |].
      apply (Permutation_Forall (Permutation_sym (insert_desc_perm x r))).
      constructor; [unfold more_popular; lia | exact Hy].
    + apply Z.ltb_ge in E. constructor.
      * constructor; assumption.
      * constructor; [exact E |].
        eapply Forall_impl; [| exact Hy].
        unfold more_popular. intros z Hz. lia.
Qed.

Lemma sorted_desc_sorted (l : list LibraryItem) :
  StronglySorted more_popular (sorted_desc l).
Proof.
  induction l as [| x l IH]; simpl; [constructor |].
  apply insert_desc_sorted. exact IH.
Qed.

Lemma insert_desc_stable (k : Z) (x : LibraryItem) (l : list LibraryItem) :
  filter (fun i => checkout_count i =? k) (insert_desc x l) =
  filter (fun i => checkout_count i =? k) (x :: l).
Proof.
  induction l as [| y r IH]; [reflexivity |].
  cbn [insert_desc].
  destruct (checkout_count x <? checkout_count y) eqn:E; [| reflexivity].
  apply Z.ltb_lt in E. cbn [filter] in *. rewrite IH.
  destruct (checkout_count x =? k) eqn:Ex;
    destruct (checkout_count y =? k) eqn:Ey; try reflexivity.
  apply Z.eqb_eq in Ex, Ey. lia.
Qed.

Lemma sorted_desc_stable (k : Z) (l : list LibraryItem) :
  filter (fun i => checkout_count i =? k) (sorted_desc l) =
  filter (fun i => checkout_count i =? k) l.
Proof.
  induction l as [| x l IH]; [reflexivity |].
  cbn [sorted_desc fold_right]. rewrite insert_desc_stable.
  cbn [filter]. fold (sorted_desc l). rewrite IH. reflexivity.
Qed.

Lemma StronglySorted_split {A} (R : A -> A -> Prop) (l1 l2 : list A) :
  StronglySorted R (l1 ++ l2) ->
  StronglySorted R l1 /\
  (forall x y, In x l1 -> In y l2 -> R x y).
Proof.
  induction l1 as [| a l1 IH]; simpl; intro H.
  - split; [constructor | intros x y []].
  - inversion H as [| ? ? Hs Hall]; subst.
    destruct (IH Hs) as [Hs1 Hcross]. split.
    + constructor; [exact Hs1 |].
      apply Forall_app in Hall. apply Hall.
    + intros x y [<- | Hx] Hy.
      * rewrite Forall_forall in Hall. apply Hall.
        apply in_or_app. right. exact Hy.
      * apply Hcross; assumption.
Qed.

Lemma popular_entries_sorted (l : list LibraryItem) :
  StronglySorted more_popular l ->
  StronglySorted
    (fun a b => pop_checkout_count b <= pop_checkout_count a)
    (map popular_entry l).
Proof.
  induction 1 as [| a l Hl IH Ha]; simpl; constructor.
  - exact IH.
  - apply Forall_map. exact Ha.
Qed.

Lemma filter_popular_entries (k : Z) (l : list LibraryItem) :
  filter (fun entry => pop_checkout_count entry =? k) (map popular_entry l)
  = map popular_entry (filter (fun item => checkout_count item =? k) l).
Proof.
  induction l as [| x l IH]; [reflexivity |].
  simpl. destruct (checkout_count x =? k); simpl; rewrite IH; reflexivity.
Qed.

Lemma slice_to_split {A} (limit : Z) (l : list A) :
  exists n, slice_to limit l = firstn n l /\
            (0 <= limit -> n = Z.to_nat limit) /\
            (limit < 0 -> n = (List.length l - Z.to_nat (- limit))%nat).
Proof.
  unfold slice_to. destruct (limit <? 0) eqn:E.
  - apply Z.ltb_lt in E.
    exists (Z.to_nat (Z.of_nat (List.length l) + limit)).
    split; [reflexivity |]. split; [lia |]. intros _. lia.
  - apply Z.ltb_ge in E. exists (Z.to_nat limit).
    split; [reflexivity |]. split; [reflexivity | lia].
Qed.

(** The popular-items report lists items of the catalog in descending
    order of checkout count; with a limit that is not negative it lists
    as many as the limit allows, and no item left out has more checkouts
    than an item that is listed.  A negative limit drops that many items
    from the end of the ranking. *)
Theorem popular_report_order (self : Catalog) (limit : Z) :
  let report := get_popular_items_report self limit in
  let values := dict_values (items self) in
  StronglySorted
    (fun a b => pop_checkout_count b <= pop_checkout_count a)
    (popular_items report) /\
  (forall entry, In entry (popular_items report) ->
     exists item, In item values /\ entry = popular_entry item) /\
  (forall entry item,
     In entry (popular_items report) -> In item values ->
     ~ In (popular_entry item) (popular_items report) ->
     checkout_count item <= pop_checkout_count entry) /\
  (0 <= limit ->
   List.length (popular_items report)
   = Nat.min (Z.to_nat limit) (List.length values)) /\
  (limit < 0 ->
   List.length (popular_items report)
   = (List.length values - Z.to_nat (- limit))%nat).
Proof.
  cbv zeta. unfold get_popular_items_report. cbn [popular_items].
  set (values := dict_values (items self)).
  destruct (slice_to_split limit (sorted_desc values))
    as (n & Hslice & Hpos & Hneg).
  rewrite Hslice.
  pose proof (sorted_desc_sorted values) as Hsorted.
  rewrite <- (firstn_skipn n (sorted_desc values)) in Hsorted.
  destruct (StronglySorted_split _ _ Hsorted) as [Hfirst Hcross].
  assert (Hlen : List.length (sorted_desc values) = List.length values)
    by (apply Permutation_length, sorted_desc_perm).
  split; [| split; [| split; [| split]]].
  - apply popular_entries_sorted. exact Hfirst.
  - intros entry Hin. apply in_map_iff in Hin.
    destruct Hin as (item & <- & Hin). exists item. split; [| reflexivity].
    apply (Permutation_in _ (sorted_desc_perm values)).
    rewrite <- (firstn_skipn n (sorted_desc values)).
    apply in_or_app. left. exact Hin.
  - intros entry item Hentry Hitem Hout.
    apply in_map_iff in Hentry. destruct Hentry as (x & <- & Hx).
    apply (Permutation_in _ (Permutation_sym (sorted_desc_perm values)))
      in Hitem.
    rewrite <- (firstn_skipn n (sorted_desc values)) in Hitem.
    apply in_app_or in Hitem. destruct Hitem as [Hitem | Hitem].
    + exfalso. apply Hout. apply in_map. exact Hitem.
    + apply (Hcross x item Hx Hitem).
  - intro H. rewrite length_map, length_firstn, Hlen, (Hpos H). reflexivity.
  - intro H. rewrite length_map, length_firstn, Hlen, (Hneg H), Hlen. lia.
Qed.

(** When the limit is at least the number of items, the report ranks
    every item, and items with the same checkout count are listed in the
    order of the catalog. *)
Theorem popular_report_stable (self : Catalog) (limit : Z)
    (Hall : Z.of_nat (List.length (items self)) <= limit) :
  let report := get_popular_items_report self limit in
  let values := dict_values (items self) in
  Permutation (popular_items report) (map popular_entry values) /\
  (forall k,
     filter (fun entry => pop_checkout_count entry =? k)
            (popular_items report)
     = map popular_entry
           (filter (fun item => checkout_count item =? k) values)).
Proof.
  cbv zeta. unfold get_popular_items_report. cbn [popular_items].
  set (values := dict_values (items self)).
  assert (Hlen : List.length (sorted_desc values) = List.length (items self)).
  { rewrite (Permutation_length (sorted_desc_perm values)).
    unfold values, dict_values. apply length_map. }
  assert (Hslice : slice_to limit (sorted_desc values) = sorted_desc values).
  { unfold slice_to. destruct (limit <? 0) eqn:E.
    - apply Z.ltb_lt in E. lia.
    - apply firstn_all2. lia. }
  rewrite Hslice. split.
  - apply Permutation_map. apply sorted_desc_perm.
  - intro k. rewrite <- (sorted_desc_stable k values).
    apply filter_popular_entries.
Qed.

Lemma popular_report_stable_witness :
  let report := get_popular_items_report sample_catalog 10 in
  let values := dict_values (items sample_catalog) in
  Permutation (popular_items report) (map popular_entry values) /\
  (forall k,
     filter (fun entry => pop_checkout_count entry =? k)
            (popular_items report)
     = map popular_entry
           (filter (fun item => checkout_count item =? k) values)).
Proof.
  apply (@popular_report_stable sample_catalog 10).
  vm_compute. discriminate.
Defined.

Lemma overdue_entry_ok_later (e e' : Env) (item : LibraryItem)
    (rest : list LibraryItem) (entry : OverdueEntry) :
  clock e' = clock e -> (ticks e <= ticks e')%nat ->
  overdue_entry_ok e' rest entry ->
  overdue_entry_ok e (item :: rest) entry.
Proof.
  intros Hclock Hticks (i & n & Hin & Hn & H).
  exists i, n. rewrite Hclock in H.
  split; [right; exact Hin |]. split; [lia | exact H].
Qed.

Lemma overdue_loop_cons (item : LibraryItem) (rest : list LibraryItem)
    (overdue : list OverdueEntry) (total : float) (e : Env) :
  overdue_loop (item :: rest) overdue total e =
    match due_date item with
    | Some due =>
        if due <? now e then
          overdue_loop rest
            (overdue ++
               [mkOverdueEntry (item_id item) (title item) due
                  (days (now (tick e) - due))
                  (calculate_fine item (days (now (tick e) - due)))
                  (current_patron item)])
            (total + calculate_fine item (days (now (tick e) - due)%Z))%float
            (tick (tick e))
        else overdue_loop rest overdue total (tick e)
    | None => overdue_loop rest overdue total e
    end.
Proof.
  cbn [overdue_loop]. destruct (due_date item) as [due |]; [| reflexivity].
  unfold bind at 1. unfold datetime_now at 1.
  destruct (due <? now e); reflexivity.
Qed.

Lemma overdue_loop_spec (its : list LibraryItem) :
  forall (overdue : list OverdueEntry) (total : float) (e : Env),
    let r := overdue_loop its overdue total e in
    exists new,
      fst (fst r) = overdue ++ new /\
      Forall (overdue_entry_ok e its) new /\
      (List.length new <= List.length (filter has_due_date its))%nat /\
      (new = [] -> snd (fst r) = total) /\
      clock (snd r) = clock e /\ (ticks e <= ticks (snd r))%nat /\
      stdout (snd r) = stdout e.
Proof.
  induction its as [| item rest IH]; intros overdue total e; cbv zeta.
  - exists []. simpl. rewrite app_nil_r. repeat split; constructor.
  - rewrite overdue_loop_cons. cbn [filter]. unfold has_due_date at 1.
    destruct (due_date item) as [due |] eqn:Hdue.
    + destruct (due <? now e) eqn:Hlt.
      * match goal with
        | |- context [overdue_loop rest ?acc ?tot ?e2] =>
            destruct (IH acc tot e2)
              as (new & Hres & Hall & Hlen & _ & Hclock & Hticks & Hout)
        end.
        cbv zeta in Hres, Hclock, Hticks, Hout.
        match goal with
        | _ : fst (fst ?r) = (overdue ++ [?en]) ++ new |- _ =>
            exists (en :: new)
        end.
        rewrite Hres, Hclock, Hout, <- app_assoc. cbn [List.length].
        cbn [ticks tick] in Hticks.
        split; [reflexivity |]. split.
        -- constructor.
           ++ exists item, (ticks e). apply Z.ltb_lt in Hlt.
              repeat split; try reflexivity; try assumption.
              left. reflexivity.
           ++ eapply Forall_impl; [| exact Hall].
              intros entry Hok.
              apply (@overdue_entry_ok_later e (tick (tick e)) item rest entry);
                [reflexivity | simpl; lia | exact Hok].
        -- split; [lia |]. split; [intro Hnil; discriminate Hnil |].
           split; [reflexivity |]. split; [lia | reflexivity].
      * destruct (IH overdue total (tick e))
          as (new & Hres & Hall & Hlen & Htot & Hclock & Hticks & Hout).
        cbv zeta in Hres, Htot, Hclock, Hticks, Hout.
        exists new. rewrite Hres, Hclock, Hout. cbn [List.length].
        cbn [ticks tick] in Hticks. split; [reflexivity |]. split.
        -- eapply Forall_impl; [| exact Hall]. intros entry Hok.
           apply (@overdue_entry_ok_later e (tick e) item rest entry);
             [reflexivity | simpl; lia | exact Hok].
        -- split; [lia |]. split; [exact Htot |].
           split; [reflexivity |]. split; [lia | reflexivity].
    + destruct (IH overdue total e)
        as (new & Hres & Hall & Hlen & Htot & Hclock & Hticks & Hout).
      cbv zeta in Hres, Htot, Hclock, Hticks, Hout.
      exists new. rewrite Hres. split; [reflexivity |]. split.
      * eapply Forall_impl; [| exact Hall]. intros entry Hok.
        apply (@overdue_entry_ok_later e e item rest entry);
          [reflexivity | lia | exact Hok].
      * repeat split; try lia; assumption.
Qed.

Lemma filter_no_due_date (l : list LibraryItem) :
  (forall item, In item l -> due_date item = None) ->
  filter has_due_date l = [].
Proof.
  induction l as [| item l IH]; intro Hnone; [reflexivity |].
  simpl. unfold has_due_date at 1.
  rewrite (Hnone item) by (left; reflexivity).
  apply IH. intros i Hi. apply Hnone. right. exact Hi.
Qed.

(** Every entry of the overdue report is an item of the catalog with a
    due date that a clock reading of the report passed; the count is the
    number of entries and is at most the number of items with a due
    date.  When the clock never runs backwards no entry has a negative
    day count.  When no item has a due date the report is empty and the
    total of the fines is 0.  The report prints nothing. *)
Theorem overdue_report_entries (self : Catalog) (e : Env) :
  let report := fst (get_overdue_items_report self e) in
  let values := dict_values (items self) in
  Forall (overdue_entry_ok e values) (overdue_items report) /\
  total_items_overdue report
  = Z.of_nat (List.length (overdue_items report)) /\
  (List.length (overdue_items report)
   <= List.length (filter has_due_date values))%nat /\
  (monotone_clock e ->
   Forall (fun entry => 0 <= od_days_overdue entry) (overdue_items report)) /\
  ((forall item, In item values -> due_date item = None) ->
   overdue_items report = [] /\ total_estimated_fines report = 0%float) /\
  stdout (snd (get_overdue_items_report self e)) = stdout e.
Proof.
  cbv zeta. unfold get_overdue_items_report, bind, ret.
  destruct (overdue_loop_spec (dict_values (items self)) [] 0%float e)
    as (new & Hres & Hall & Hlen & Htot & _ & _ & Hout).
  cbv zeta in Hres, Htot, Hout.
  destruct (overdue_loop (dict_values (items self)) [] 0%float e)
    as [[entries total] e'].
  cbn [fst snd overdue_items total_items_overdue total_estimated_fines] in *.
  subst entries.
  split; [exact Hall |]. split; [reflexivity |]. split; [exact Hlen |].
  split; [| split; [| exact Hout]].
  - intro Hmono. eapply Forall_impl; [| exact Hall].
    intros entry (item & n & _ & _ & _ & Hlate & Hdays & _).
    rewrite Hdays. unfold days. apply Z.div_pos; [| reflexivity].
    pose proof (Hmono n (S n) (Nat.le_succ_diag_r n)). lia.
  - intro Hnone.
    rewrite (filter_no_due_date _ Hnone) in Hlen. destruct new; [| simpl in Hlen; lia].
    split; [reflexivity | apply Htot; reflexivity].
Qed.

Lemma overdue_report_entries_witness :
  Forall (fun entry => 0 <= od_days_overdue entry)
         (overdue_items
            (fst (get_overdue_items_report
                    (snd (add_item new_Catalog sample_overdue)) env0))).
Proof.
  apply (proj1 (proj2 (proj2 (proj2
           (overdue_report_entries
              (snd (add_item new_Catalog sample_overdue)) env0))))).
  intros n m Hnm. unfold env0. cbn [clock]. lia.
Defined.

(** ** A patron at the limit stays at the limit *)

Lemma patron_step_full (p p' : Patron) :
  patron_step p p' ->
  get_max_checkouts p <= Z.of_nat (List.length (checked_out_items p)) ->
  checked_out_items p' = checked_out_items p /\
  membership_level p' = membership_level p.
Proof.
  intros Hstep Hfull. destruct Hstep as [p item e | p msg ty e].
  - destruct (checkout_item_cases p item e) as [[Hlt _] | [_ Heq]];
      [lia |]. rewrite Heq. split; reflexivity.
  - split; reflexivity.
Qed.

(** Once a patron holds as many items as the tier allows, no operation
    on the patron makes room again: after any number of checkouts and
    notifications the patron holds the same items and [checkout_item]
    still returns [False].  Checking an item in does not involve the
    patron at all. *)
Theorem patron_limit_is_permanent
    (p p' : Patron) (item : LibraryItem) (e : Env)
    (Hfull : get_max_checkouts p
             <= Z.of_nat (List.length (checked_out_items p)))
    (Hsteps : patron_steps p p') :
  checked_out_items p' = checked_out_items p /\
  checkout_item p' item e = (false, p', e).
Proof.
  assert (H : checked_out_items p' = checked_out_items p /\
              membership_level p' = membership_level p).
  { apply clos_rt_rt1n in Hsteps.
    induction Hsteps as [p | p q r Hstep Hrest IH]; [split; reflexivity |].
    destruct (patron_step_full Hstep Hfull) as [Hitems Hlevel].
    destruct IH as [IHitems IHlevel].
    - unfold get_max_checkouts in *. rewrite Hitems, Hlevel. exact Hfull.
    - rewrite IHitems, IHlevel. split; assumption. }
  destruct H as [Hitems Hlevel]. split; [exact Hitems |].
  destruct (checkout_item_cases p' item e) as [[Hlt _] | [_ Heq]];
    [| exact Heq].
  unfold get_max_checkouts in *. rewrite Hitems, Hlevel in Hlt. lia.
Qed.

Lemma patron_limit_is_permanent_witness :
  checked_out_items
    (snd (fst (add_notification sample_student "Overdue" OVERDUE env0)))
  = checked_out_items sample_student /\
  checkout_item
    (snd (fst (add_notification sample_student "Overdue" OVERDUE env0)))
    sample_dvd env0
  = (false,
     snd (fst (add_notification sample_student "Overdue" OVERDUE env0)),
     env0).
Proof.
  apply (@patron_limit_is_permanent sample_student
           (snd (fst (add_notification sample_student "Overdue" OVERDUE env0)))
           sample_dvd env0).
  - vm_compute. discriminate.
  - apply rt_step. apply step_add_notification.
Defined.

(** ** The substring test *)

Lemma prefix_app (a b : string) :
  String.prefix a b = true <-> exists post, b = (a ++ post)%string.
Proof.
  revert b. induction a as [| c a IH]; intro b; simpl.
  - split; [intros _; exists b; reflexivity |].
    intros _. destruct b; reflexivity.
  - destruct b as [| c' b];
      [split; [discriminate | intros [post H]; discriminate H] |].
    simpl. destruct (Ascii.ascii_dec c c') as [-> | Hne].
    + rewrite IH. split; intros [post H]; exists post.
      * rewrite H. reflexivity.
      * injection H as H. exact H.
    + split; [discriminate |]. intros [post H]. injection H as Hc _.
      contradiction Hne. symmetry. exact Hc.
Qed.

Lemma str_in_unfold (needle haystack : string) :
  str_in needle haystack =
    if String.prefix needle haystack then true
    else match haystack with
         | EmptyString => false
         | String _ rest => str_in needle rest
         end.
Proof. destruct haystack; reflexivity. Qed.

Lemma str_in_spec (needle haystack : string) :
  str_in needle haystack = true <->
  exists pre post, haystack = (pre ++ needle ++ post)%string.
Proof.
  induction haystack as [| c rest IH]; rewrite str_in_unfold.
  - destruct (String.prefix needle "") eqn:E.
    + split; [| reflexivity]. intros _. apply prefix_app in E.
      destruct E as [post H]. exists "", post. exact H.
    + split; [discriminate |]. intros (pre & post & H).
      destruct pre; simpl in H; [| discriminate H].
      assert (E' : String.prefix needle "" = true)
        by (apply prefix_app; exists post; exact H).
      rewrite E in E'. discriminate E'.
  - destruct (String.prefix needle (String c rest)) eqn:E.
    + split; [| reflexivity]. intros _. apply prefix_app in E.
      destruct E as [post H]. exists "", post. exact H.
    + rewrite IH. split.
      * intros (pre & post & H). exists (String c pre), post.
        rewrite H. reflexivity.
      * intros (pre & post & H). destruct pre as [| c' pre]; simpl in H.
        -- assert (E' : String.prefix needle (String c rest) = true)
             by (apply prefix_app; exists post; exact H).
           rewrite E in E'. discriminate E'.
        -- injection H as _ H. exists pre, post. exact H.
Qed.

(** A search by title reports an item exactly when the lower-cased term
    occurs in the lower-cased title as a run of consecutive characters;
    a search by category does the same on the category, and a search by
    author on the author of an item that has one. *)
Theorem search_matches_substring (lower : string -> string)
    (search_term : string) (item : LibraryItem) :
  (search_matches lower search_term "title" item = true <->
   exists pre post,
     lower (title item) = (pre ++ lower search_term ++ post)%string) /\
  (search_matches lower search_term "category" item = true <->
   exists pre post,
     lower (category item) = (pre ++ lower search_term ++ post)%string) /\
  (search_matches lower search_term "author" item = true <->
   exists a pre post,
     author item = Some a /\
     lower a = (pre ++ lower search_term ++ post)%string).
Proof.
  unfold search_matches. cbn [String.eqb Ascii.eqb Bool.eqb andb orb].
  split; [| split].
  - rewrite ?orb_false_r. apply str_in_spec.
  - rewrite ?orb_false_r. apply str_in_spec.
  - rewrite ?orb_false_r. destruct (author item) as [a |].
    + rewrite str_in_spec. split.
      * intros (pre & post & H). exists a, pre, post.
        split; [reflexivity | exact H].
      * intros (a' & pre & post & Ha & H). injection Ha as <-.
        exists pre, post. exact H.
    + split; [discriminate |]. intros (a & _ & _ & Ha & _). discriminate Ha.
Qed.
